(** * The Match model and the MatchController of the esports backend

    A shallow embedding of the Match model (the mongoose schema required as
    [models/Match], its [pre('save')] hook and its instance methods) and of
    the handlers of the class [MatchController] that drive the match
    lifecycle, with the properties of the match engine proved about them.

    Conventions of the embedding:
    - an [ObjectId] is a number; [a.equals(b)] is equality on it;
    - a [Date] is a number of milliseconds since the epoch; a number
      outside the range of a JavaScript date stands for an Invalid Date;
      every [new Date()] of the source reads the clock, which the
      embedding passes in as the argument [now];
    - a JavaScript [Number] held by a match or sent in a request is an
      integer ([Z]);
    - a string is the sequence of the bytes of its UTF-8 encoding;
    - a field that may be [undefined] is an [option];
    - a mongoose method mutates [this] and returns the promise of
      [this.save()]: it is embedded as a function returning the mutated
      document together with the outcome of that promise;
    - the collections of the database are finite maps from ids to
      documents, and a handler is a function from the database and the
      request to the new database and the response. *)

From stdpp Require Import base option list numbers strings gmap sorting.

Local Open Scope string_scope.
Local Open Scope Z_scope.
Local Open Scope list_scope.

(** ** Data model *)

Definition ObjectId := N.
Definition Date := Z.

(** The time values a JavaScript date can hold: 8.64e15 milliseconds either
    side of the epoch. *)
Definition max_time : Z := 8640000000000000.

Definition valid_date (d : Date) : bool :=
  (- max_time <=? d) && (d <=? max_time).

(** A number outside the range stands for an Invalid Date. A date field
    given one fails its cast: what matters of a document with such a field
    is that validation rejects it. *)
Definition Invalid_Date : Date := max_time + 1.

(** [new Date(value)] on what a request carries: the date of that time for
    a number within the range, an Invalid Date for a number outside it and
    for [undefined]. *)
Definition new_Date (value : option Z) : Date :=
  match value with
  | Some n => if valid_date n then n else Invalid_Date
  | None => Invalid_Date
  end.

(** The [length] of a JavaScript string, in UTF-16 code units, from the
    bytes of its UTF-8 encoding: a sequence of one, two or three bytes is
    one unit, a sequence of four bytes is two. *)
Fixpoint js_length (s : string) : nat :=
  match s with
  | EmptyString => 0%nat
  | String c s1 =>
      if (240 <=? Ascii.N_of_ascii c)%N then
        match s1 with
        | String _ (String _ (String _ s4)) => S (S (js_length s4))
        | _ => S (js_length s1)
        end
      else if (224 <=? Ascii.N_of_ascii c)%N then
        match s1 with
        | String _ (String _ s3) => S (js_length s3)
        | _ => S (js_length s1)
        end
      else if (192 <=? Ascii.N_of_ascii c)%N then
        match s1 with
        | String _ s2 => S (js_length s2)
        | _ => S (js_length s1)
        end
      else S (js_length s1)
  end.

Inductive Status :=
| scheduled | ongoing | completed | cancelled | postponed.

#[global] Instance Status_eq_dec : EqDecision Status.
Proof. solve_decision. Defined.

(** The sub-documents of [games]. *)
Record Game := mkGame {
  gameNumber : Z;
  teamAScore : Z;
  teamBScore : Z;
  winner : option ObjectId;
  g_duration : Z;
  g_notes : string
}.

Record Score := mkScore { s_teamA : Z; s_teamB : Z }.

Record Match := mkMatch {
  tournamentId : ObjectId;
  teamAId : ObjectId;
  teamBId : ObjectId;
  scheduleAt : Date;
  result : string;
  score : Score;
  status : Status;
  round : Z;
  bracket : string;
  duration : Z;
  startTime : option Date;
  endTime : option Date;
  winnerId : option ObjectId;
  bestOf : Z;
  games : list Game;
  streamUrl : string;
  notes : option string;
  refereeId : option ObjectId
}.

(** Assignments to the fields the methods write. *)
Definition set_scheduleAt (v : Date) (m : Match) : Match :=
  mkMatch (tournamentId m) (teamAId m) (teamBId m) v (result m)
    (score m) (status m) (round m) (bracket m) (duration m) (startTime m)
    (endTime m) (winnerId m) (bestOf m) (games m) (streamUrl m) (notes m)
    (refereeId m).

Definition set_result (v : string) (m : Match) : Match :=
  mkMatch (tournamentId m) (teamAId m) (teamBId m) (scheduleAt m) v
    (score m) (status m) (round m) (bracket m) (duration m) (startTime m)
    (endTime m) (winnerId m) (bestOf m) (games m) (streamUrl m) (notes m)
    (refereeId m).

Definition set_score (v : Score) (m : Match) : Match :=
  mkMatch (tournamentId m) (teamAId m) (teamBId m) (scheduleAt m)
    (result m) v (status m) (round m) (bracket m) (duration m) (startTime m)
    (endTime m) (winnerId m) (bestOf m) (games m) (streamUrl m) (notes m)
    (refereeId m).

Definition set_status (v : Status) (m : Match) : Match :=
  mkMatch (tournamentId m) (teamAId m) (teamBId m) (scheduleAt m)
    (result m) (score m) v (round m) (bracket m) (duration m) (startTime m)
    (endTime m) (winnerId m) (bestOf m) (games m) (streamUrl m) (notes m)
    (refereeId m).

Definition set_startTime (v : option Date) (m : Match) : Match :=
  mkMatch (tournamentId m) (teamAId m) (teamBId m) (scheduleAt m)
    (result m) (score m) (status m) (round m) (bracket m) (duration m) v
    (endTime m) (winnerId m) (bestOf m) (games m) (streamUrl m) (notes m)
    (refereeId m).

Definition set_endTime (v : option Date) (m : Match) : Match :=
  mkMatch (tournamentId m) (teamAId m) (teamBId m) (scheduleAt m)
    (result m) (score m) (status m) (round m) (bracket m) (duration m)
    (startTime m) v (winnerId m) (bestOf m) (games m) (streamUrl m) (notes m)
    (refereeId m).

Definition set_winnerId (v : option ObjectId) (m : Match) : Match :=
  mkMatch (tournamentId m) (teamAId m) (teamBId m) (scheduleAt m)
    (result m) (score m) (status m) (round m) (bracket m) (duration m)
    (startTime m) (endTime m) v (bestOf m) (games m) (streamUrl m) (notes m)
    (refereeId m).

Definition set_games (v : list Game) (m : Match) : Match :=
  mkMatch (tournamentId m) (teamAId m) (teamBId m) (scheduleAt m)
    (result m) (score m) (status m) (round m) (bracket m) (duration m)
    (startTime m) (endTime m) (winnerId m) (bestOf m) v (streamUrl m) (notes m)
    (refereeId m).

Definition set_notes (v : option string) (m : Match) : Match :=
  mkMatch (tournamentId m) (teamAId m) (teamBId m) (scheduleAt m)
    (result m) (score m) (status m) (round m) (bracket m) (duration m)
    (startTime m) (endTime m) (winnerId m) (bestOf m) (games m) (streamUrl m) v
    (refereeId m).

(** ** [save]: schema validation, then the [pre('save')] hook *)

(** The message of one failed path of a validation: a text, or the
    message mongoose makes for a value that could not be cast to the type
    of its path, whose wording is the library's. *)
Inductive Message :=
| Text (s : string)
| CastError (path : string).

(** What a rejected [save] carries: mongoose's own [ValidationError], with
    the messages of the paths that failed, or the plain [Error] the hook
    hands to [next]. The constructor is the [name] of the error. *)
Inductive SaveError :=
| ValidationError (errors : list Message)
| Error (message : string).

Inductive Promise (A : Type) :=
| Resolved (a : A)
| Rejected (e : SaveError).
Arguments Resolved {A} a.
Arguments Rejected {A} e.

Definition is_resolved {A} (p : Promise A) : bool :=
  match p with Resolved _ => true | Rejected _ => false end.

Definition brackets : list string := ["winners"; "losers"; "finals"; "group"].

Definition check (failed : bool) (msg : Message) : list Message :=
  if failed then [msg] else [].

(** The validation of a document: the cast of [scheduleAt] to a date, and
    the validators of the schema, [maxlength], [min] and [enum]. The
    message of a failed [enum] is mongoose's default one. *)
Definition validate (m : Match) : list Message :=
  check (negb (valid_date (scheduleAt m))) (CastError "scheduleAt") ++
  check (200 <? Z.of_nat (js_length (result m)))
        (Text "Result cannot exceed 200 characters") ++
  check (s_teamA (score m) <? 0) (Text "Score cannot be negative") ++
  check (s_teamB (score m) <? 0) (Text "Score cannot be negative") ++
  check (round m <? 1) (Text "Round must be at least 1") ++
  check (negb (bool_decide (bracket m ∈ brackets)))
        (Text ("`" ++ bracket m ++
               "` is not a valid enum value for path `bracket`.")%string) ++
  check (bestOf m <? 1) (Text "Best of must be at least 1") ++
  check (match notes m with
         | Some s => 1000 <? Z.of_nat (js_length s)
         | None => false
         end) (Text "Notes cannot exceed 1000 characters").

(** [matchSchema.pre('save', ...)]: [Some msg] when the hook calls
    [next(new Error(msg))]. A [Date] object is truthy whatever its value. *)
Definition pre_save (m : Match) : option string :=
  if bool_decide (teamAId m = teamBId m)
  then Some "Team A and Team B cannot be the same"
  else match endTime m, startTime m with
       | Some e, Some s =>
           if e <=? s then Some "End time must be after start time" else None
       | _, _ => None
       end.

Definition save (m : Match) : Promise Match :=
  match validate m with
  | [] => match pre_save m with
          | Some msg => Rejected (Error msg)
          | None => Resolved m
          end
  | errors => Rejected (ValidationError errors)
  end.

(** ** Instance methods *)

(** [Math.ceil(a / b)] on integers, for [b > 0]. *)
Definition Math_ceil_div (a b : Z) : Z := - ((- a) / b).

Definition setResult (now : Date) (this : Match)
    (res : string) (scoreA scoreB : Z) : Match * Promise Match :=
  let this := set_result res this in
  let this := set_score (mkScore scoreA (s_teamB (score this))) this in
  let this := set_score (mkScore (s_teamA (score this)) scoreB) this in
  let this :=
    if scoreA >? scoreB then set_winnerId (Some (teamAId this)) this
    else if scoreB >? scoreA then set_winnerId (Some (teamBId this)) this
    else this in
  let this := set_status completed this in
  let this := set_endTime (Some now) this in
  (this, save this).

Definition rescheduleNewDate (this : Match) (newDate : Date)
    : Match * Promise Match :=
  let this := set_scheduleAt newDate this in
  let this := set_status scheduled this in
  (this, save this).

Definition start (now : Date) (this : Match) : Match * Promise Match :=
  let this := set_status ongoing this in
  let this := set_startTime (Some now) this in
  (this, save this).

(** [reason = ''] : the default is taken when the argument is [undefined]. *)
Definition cancel (this : Match) (reason : option string)
    : Match * Promise Match :=
  let reason := default "" reason in
  let this := set_status cancelled this in
  let this := set_notes (Some reason) this in
  (this, save this).

Definition postpone (this : Match) (reason : option string)
    : Match * Promise Match :=
  let reason := default "" reason in
  let this := set_status postponed this in
  let this := set_notes (Some reason) this in
  (this, save this).

(** [game.winner && game.winner.equals(team)] *)
Definition won_by (team : ObjectId) (game : Game) : bool :=
  match winner game with
  | Some w => bool_decide (w = team)
  | None => false
  end.

(** [games.filter(game => ...).length] *)
Definition wins (team : ObjectId) (gs : list Game) : Z :=
  Z.of_nat (length (List.filter (won_by team) gs)).

Definition addGame (now : Date) (this : Match) (gameData : Game)
    : Match * Promise Match :=
  let this := set_games (games this ++ [gameData]) this in
  let requiredWins := Math_ceil_div (bestOf this) 2 in
  let teamAWins := wins (teamAId this) (games this) in
  let teamBWins := wins (teamBId this) (games this) in
  let this :=
    if teamAWins >=? requiredWins then
      set_endTime (Some now)
        (set_status completed (set_winnerId (Some (teamAId this)) this))
    else if teamBWins >=? requiredWins then
      set_endTime (Some now)
        (set_status completed (set_winnerId (Some (teamBId this)) this))
    else this in
  (this, save this).

(** ** The database and the handlers of [MatchController]

    A collection is a finite map from the [_id] of a document to the
    document. *)

(** The part of a competitor document the match handlers read or write. *)
Record Competitor := mkCompetitor {
  c_tournamentId : ObjectId;
  c_wins : Z;
  c_losses : Z;
  c_points : Z
}.

(** [competitorSchema.methods.updateStats] *)
Definition updateStats (this : Competitor) (win : bool) : Competitor :=
  if win
  then mkCompetitor (c_tournamentId this) (c_wins this + 1) (c_losses this)
         (c_points this + 3)
  else mkCompetitor (c_tournamentId this) (c_wins this) (c_losses this + 1)
         (c_points this).

Record DB := mkDB {
  tournaments : gset ObjectId;
  competitors : gmap ObjectId Competitor;
  matches : gmap ObjectId Match
}.

(** A resolved [save] writes the document under its [_id]. *)
Definition store_match (id : ObjectId) (m : Match) (db : DB) : DB :=
  mkDB (tournaments db) (competitors db) (<[id := m]> (matches db)).

Definition store_competitor (id : ObjectId) (c : Competitor) (db : DB) : DB :=
  mkDB (tournaments db) (<[id := c]> (competitors db)) (matches db).

(** [res.status(code).json({ success, message, errors, data })] *)
Record Response := mkResponse {
  res_status : Z;
  res_success : bool;
  res_message : string;
  res_errors : list Message;
  res_data : option Match
}.

Definition fail (code : Z) (msg : string) : Response :=
  mkResponse code false msg [] None.

Definition ok (code : Z) (msg : string) (m : option Match) : Response :=
  mkResponse code true msg [] m.

(** [Competitor.findOne({ _id: id, tournamentId })] *)
Definition findCompetitorIn (db : DB) (id tid : ObjectId) : option Competitor :=
  match competitors db !! id with
  | Some c => if bool_decide (c_tournamentId c = tid) then Some c else None
  | None => None
  end.

(** The body of a create-match request; [None] where the field is absent. *)
Record CreateBody := mkCreateBody {
  b_tournamentId : ObjectId;
  b_teamAId : ObjectId;
  b_teamBId : ObjectId;
  b_scheduleAt : option Z;
  b_round : option Z;
  b_bracket : option string;
  b_bestOf : option Z;
  b_refereeId : option ObjectId
}.

(** [new Match({...})]: the fields given, the schema defaults elsewhere. *)
Definition new_Match (b : CreateBody) : Match :=
  mkMatch (b_tournamentId b) (b_teamAId b) (b_teamBId b)
    (new_Date (b_scheduleAt b))
    "" (mkScore 0 0) scheduled (default 1 (b_round b))
    (default "winners" (b_bracket b)) 0 None None None
    (default 1 (b_bestOf b)) [] "" None (b_refereeId b).

(** The bodies of the set-result and add-game requests. *)
Record ResultBody := mkResultBody {
  b_result : option string;
  b_scoreA : option Z;
  b_scoreB : option Z
}.

Record GameBody := mkGameBody {
  b_gameNumber : option Z;
  b_teamAScore : option Z;
  b_teamBScore : option Z;
  b_winnerId : option ObjectId;
  b_duration : option Z;
  b_notes : option string
}.

Module MatchController.

(** [newId] is the [_id] generated for the new document. *)
Definition createMatch (newId : ObjectId) (db : DB) (body : CreateBody)
    : DB * Response :=
  if bool_decide (b_tournamentId body ∈ tournaments db) then
    match findCompetitorIn db (b_teamAId body) (b_tournamentId body),
          findCompetitorIn db (b_teamBId body) (b_tournamentId body) with
    | Some _, Some _ =>
        let match_ := new_Match body in
        match save match_ with
        | Resolved m =>
            (store_match newId m db, ok 201 "Match created successfully" (Some m))
        | Rejected (ValidationError errors) =>
            (db, mkResponse 400 false "Validation failed" errors None)
        | Rejected (Error _) =>
            (db, fail 500 "Server error while creating match")
        end
    | _, _ =>
        (db, fail 400 "One or both competitors not found in this tournament")
    end
  else (db, fail 404 "Tournament not found").

(** The tail shared by the handlers that call a method on a loaded match:
    [await match.method(...)], then [res.json] with the document; a rejected
    [save] lands in the [catch], and nothing was written. *)
Definition settle (db : DB) (id : ObjectId) (r : Match * Promise Match)
    (done failed : string) : DB * Response :=
  match r with
  | (this, Resolved _) => (store_match id this db, ok 200 done (Some this))
  | (_, Rejected _) => (db, fail 500 failed)
  end.

Definition startMatch (now : Date) (db : DB) (id : ObjectId) : DB * Response :=
  match matches db !! id with
  | None => (db, fail 404 "Match not found")
  | Some match_ =>
      if bool_decide (status match_ <> scheduled)
      then (db, fail 400 "Match cannot be started from current status")
      else settle db id (start now match_) "Match started successfully"
             "Server error while starting match"
  end.

(** The update of the competitors' statistics after a result. *)
Definition update_ledger (m : Match) (db : DB) : DB :=
  match competitors db !! teamAId m, competitors db !! teamBId m with
  | Some teamA, Some teamB =>
      if bool_decide (winnerId m = Some (teamAId m)) then
        store_competitor (teamBId m) (updateStats teamB false)
          (store_competitor (teamAId m) (updateStats teamA true) db)
      else if bool_decide (winnerId m = Some (teamBId m)) then
        store_competitor (teamAId m) (updateStats teamA false)
          (store_competitor (teamBId m) (updateStats teamB true) db)
      else db
  | _, _ => db
  end.

Definition setMatchResult (now : Date) (db : DB) (id : ObjectId)
    (body : ResultBody) : DB * Response :=
  match b_scoreA body, b_scoreB body with
  | Some scoreA, Some scoreB =>
      match matches db !! id with
      | None => (db, fail 404 "Match not found")
      | Some match_ =>
          match setResult now match_ (default "" (b_result body))
                  scoreA scoreB with
          | (this, Resolved _) =>
              let db := update_ledger this (store_match id this db) in
              (db, ok 200 "Match result set successfully" (matches db !! id))
          | (_, Rejected _) =>
              (db, fail 500 "Server error while setting match result")
          end
      end
  | _, _ => (db, fail 400 "Both team scores are required")
  end.

(** [!x] on a number that may be absent: [undefined] and [0] are falsy. *)
Definition falsy (x : option Z) : bool :=
  match x with
  | Some v => v =? 0
  | None => true
  end.

Definition rescheduleMatch (db : DB) (id : ObjectId) (newDate : option Z)
    : DB * Response :=
  if falsy newDate then (db, fail 400 "New date is required")
  else
    match matches db !! id with
    | None => (db, fail 404 "Match not found")
    | Some match_ =>
        settle db id (rescheduleNewDate match_ (new_Date newDate))
          "Match rescheduled successfully"
          "Server error while rescheduling match"
    end.

(** [x || d] on a number that may be absent: [0] is falsy. *)
Definition or_num (x : option Z) (d : Z) : Z :=
  match x with
  | Some v => if v =? 0 then d else v
  | None => d
  end.

(** [x || d] on a string that may be absent: [''] is falsy. *)
Definition or_str (x : option string) (d : string) : string :=
  match x with
  | Some v => if bool_decide (v = "") then d else v
  | None => d
  end.

Definition gameData_of (match_ : Match) (body : GameBody) : Game :=
  mkGame (or_num (b_gameNumber body) (Z.of_nat (length (games match_)) + 1))
    (or_num (b_teamAScore body) 0) (or_num (b_teamBScore body) 0)
    (b_winnerId body) (or_num (b_duration body) 0) (or_str (b_notes body) "").

Definition addGame (now : Date) (db : DB) (id : ObjectId)
    (body : GameBody) : DB * Response :=
  match matches db !! id with
  | None => (db, fail 404 "Match not found")
  | Some match_ =>
      match addGame now match_ (gameData_of match_ body) with
      | (this, Resolved _) =>
          let db := store_match id this db in
          (db, ok 200 "Game added successfully" (matches db !! id))
      | (_, Rejected _) => (db, fail 500 "Server error while adding game")
      end
  end.

Definition cancelMatch (db : DB) (id : ObjectId) (reason : option string)
    : DB * Response :=
  match matches db !! id with
  | None => (db, fail 404 "Match not found")
  | Some match_ =>
      settle db id (cancel match_ (Some (or_str reason "No reason provided")))
        "Match cancelled successfully" "Server error while cancelling match"
  end.

Definition postponeMatch (db : DB) (id : ObjectId) (reason : option string)
    : DB * Response :=
  match matches db !! id with
  | None => (db, fail 404 "Match not found")
  | Some match_ =>
      settle db id (postpone match_ (Some (or_str reason "No reason provided")))
        "Match postponed successfully" "Server error while postponing match"
  end.

End MatchController.

(** The operations of the match engine, as requests to the handlers. The
    generic update and delete handlers, which go through
    [findByIdAndUpdate] and [findByIdAndDelete] and not through the methods
    of the model, are not operations of the engine and are not embedded. *)
Inductive Request :=
| Schedule (newId : ObjectId) (body : CreateBody)
| Start (id : ObjectId)
| RecordResult (id : ObjectId) (body : ResultBody)
| Reschedule (id : ObjectId) (newDate : option Z)
| AddGame (id : ObjectId) (body : GameBody)
| Cancel (id : ObjectId) (reason : option string)
| Postpone (id : ObjectId) (reason : option string).

Definition handle (now : Date) (db : DB) (rq : Request) : DB * Response :=
  match rq with
  | Schedule newId body => MatchController.createMatch newId db body
  | Start id => MatchController.startMatch now db id
  | RecordResult id body => MatchController.setMatchResult now db id body
  | Reschedule id newDate => MatchController.rescheduleMatch db id newDate
  | AddGame id body => MatchController.addGame now db id body
  | Cancel id reason => MatchController.cancelMatch db id reason
  | Postpone id reason => MatchController.postponeMatch db id reason
  end.

(** A run of the engine: requests served one after the other, each at the
    time the clock shows when it is served. *)
Fixpoint run (db : DB) (rqs : list (Date * Request)) : DB :=
  match rqs with
  | [] => db
  | (now, rq) :: rqs => run (handle now db rq).1 rqs
  end.

(** ** Predicates and data of the statements *)

(** The documents the validators of the schema accept. *)
Record valid_fields (m : Match) : Prop := mkValid {
  valid_scheduleAt : valid_date (scheduleAt m) = true;
  valid_result : Z.of_nat (js_length (result m)) <= 200;
  valid_scoreA : 0 <= s_teamA (score m);
  valid_scoreB : 0 <= s_teamB (score m);
  valid_round : 1 <= round m;
  valid_bracket : bracket m ∈ brackets;
  valid_bestOf : 1 <= bestOf m;
  valid_notes : forall s, notes m = Some s -> Z.of_nat (js_length s) <= 1000
}.

(** A document is accepted by [save] exactly when its fields are valid, its
    teams differ and its end time, if any, is after its start time, if any. *)
Definition persistable (m : Match) : Prop :=
  valid_fields m /\ teamAId m <> teamBId m /\
  (forall e s, endTime m = Some e -> startTime m = Some s -> s < e).

(** Games added one after the other, each at its own time, on the
    document in memory. *)
Fixpoint addGames (this : Match) (gs : list (Date * Game)) : Match :=
  match gs with
  | [] => this
  | (now, g) :: gs => addGames (addGame now this g).1 gs
  end.

(** A match between teams 1 and 2 in tournament 7, started at time 100. *)
Definition started (n : Z) : Match :=
  mkMatch 7%N 1%N 2%N 50 "" (mkScore 0 0) ongoing 1 "winners" 0 (Some 100)
    None None n [] "" None None.

Definition won (k : Z) (team : ObjectId) : Game :=
  mkGame k 1 0 (Some team) 30 "".

Definition no_winner (k : Z) : Game := mkGame k 0 0 None 30 "".

(** A database with tournament 7, its competitors 1 and 2, competitor 3 of
    tournament 8, and no match. *)
Definition db0 : DB :=
  mkDB {[ 7%N ]}
    (<[1%N := mkCompetitor 7%N 0 0 0]>
       (<[2%N := mkCompetitor 7%N 0 0 0]>
          (<[3%N := mkCompetitor 8%N 0 0 0]> ∅)))
    ∅.

Definition with_match (id : ObjectId) (m : Match) : DB := store_match id m db0.

(** A best-of-three match completed at time 300 with winner 1. *)
Definition finished : Match :=
  mkMatch 7%N 1%N 2%N 50 "2-0" (mkScore 2 0) completed 1 "winners" 0 (Some 100)
    (Some 300) (Some 1%N) 3 [won 1 1%N; won 2 1%N] "" None None.

(** A match of teams 1 and 2, freshly scheduled. *)
Definition fresh : Match :=
  mkMatch 7%N 1%N 2%N 50 "" (mkScore 0 0) scheduled 1 "winners" 0 None None
    None 3 [] "" None None.

(** ** Invariants of the stored matches *)

Definition ordered (m : Match) : Prop :=
  forall e s, endTime m = Some e -> startTime m = Some s -> s < e.

Definition db_ordered (db : DB) : Prop :=
  forall id m, matches db !! id = Some m -> ordered m.

Definition db_distinct (db : DB) : Prop :=
  forall id m, matches db !! id = Some m -> teamAId m <> teamBId m.

(** A handler leaves the matches as they are, or writes one document that
    [save] has accepted. *)
Definition writes_saved (db db' : DB) : Prop :=
  matches db' = matches db \/
  exists id this, persistable this /\ matches db' = <[id := this]> (matches db).

(** A best of one between teams 1 and 2, completed at time 200 by a game
    that team 2 won. *)
Definition won_by_team_2 : Match :=
  mkMatch 7%N 1%N 2%N 50 "" (mkScore 0 0) completed 1 "winners" 0 (Some 100)
    (Some 200) (Some 2%N) 1 [won 1 2%N] "" None None.

(** The same story as requests: a best of one is scheduled and started,
    team 2 wins a game, and then a game won by team 1 is added. *)
Definition game_for (team : ObjectId) : GameBody :=
  mkGameBody None (Some 1) (Some 0) (Some team) None None.

Definition best_of_one : CreateBody :=
  mkCreateBody 7%N 1%N 2%N (Some 50) None None (Some 1) None.

Definition one_game_each : list (Date * Request) :=
  [(10, Schedule 9%N best_of_one); (100, Start 9%N);
   (200, AddGame 9%N (game_for 2%N)); (300, AddGame 9%N (game_for 1%N))].

(** A database in which match 9 is the best of one started at time 100 and
    cancelled afterwards. *)
Definition db_cancelled : DB := with_match 9%N (set_status cancelled (started 1)).

(** A request to schedule a match without a date. *)
Definition no_date : CreateBody :=
  mkCreateBody 7%N 1%N 2%N None None None None None.

(** Two requests to schedule a match in tournament 7: team 1 against itself,
    and team 1 against team 2. *)
Definition same_team : CreateBody :=
  mkCreateBody 7%N 1%N 1%N (Some 50) None None None None.

Definition two_teams : CreateBody :=
  mkCreateBody 7%N 1%N 2%N (Some 50) None None (Some 3) None.

(** Two more: for tournament 99, which does not exist, and against
    competitor 3, who is registered in another tournament. *)
Definition unknown_tournament : CreateBody :=
  mkCreateBody 99%N 1%N 2%N (Some 50) None None None None.

Definition outsider : CreateBody :=
  mkCreateBody 7%N 1%N 3%N (Some 50) None None None None.

(** ** Further predicates of the statements *)

(** The match a request is about; scheduling makes a new one. *)
Definition target (rq : Request) : option ObjectId :=
  match rq with
  | Schedule _ _ => None
  | Start id | RecordResult id _ | Reschedule id _ | AddGame id _
  | Cancel id _ | Postpone id _ => Some id
  end.

(** The id under which a request may write a match. *)
Definition written (rq : Request) : ObjectId :=
  match rq with
  | Schedule newId _ => newId
  | Start id | RecordResult id _ | Reschedule id _ | AddGame id _
  | Cancel id _ | Postpone id _ => id
  end.

(** A request that carries what its handler demands: both scores for a
    result, a new date that is not falsy for a rescheduling. *)
Definition complete (rq : Request) : bool :=
  match rq with
  | RecordResult _ body =>
      match b_scoreA body, b_scoreB body with
      | Some _, Some _ => true
      | _, _ => false
      end
  | Reschedule _ newDate => negb (MatchController.falsy newDate)
  | _ => true
  end.

(** The fields no method assigns. *)
Definition same_identity (m m' : Match) : Prop :=
  tournamentId m' = tournamentId m /\ teamAId m' = teamAId m /\
  teamBId m' = teamBId m /\ bestOf m' = bestOf m /\ round m' = round m /\
  bracket m' = bracket m /\ refereeId m' = refereeId m.

(** What a method may do to a match: the identity stays, and games are
    only added at the end. *)
Definition evolves (m m' : Match) : Prop :=
  same_identity m m' /\ games m `prefix_of` games m'.

(** The statistics of a competitor that only [updateStats] has written:
    three points a win, and no negative count. *)
Definition ledger_ok (c : Competitor) : Prop :=
  c_points c = 3 * c_wins c /\ 0 <= c_wins c /\ 0 <= c_losses c.

Definition db_ledger_ok (db : DB) : Prop :=
  forall id c, competitors db !! id = Some c -> ledger_ok c.

(** The database with tournament 7, its competitors and match 9. *)
Definition playing (m : Match) : DB := with_match 9%N m.

(** The same database after team 2 has withdrawn: its competitor document
    is gone, the match is still there. *)
Definition withdrawn (m : Match) : DB :=
  mkDB (tournaments (playing m)) (delete 2%N (competitors (playing m)))
    (matches (playing m)).

(** Games numbered 1, 2, 3, ... in the order of the sequence. *)
Definition numbered (gs : list Game) : Prop :=
  forall (i : nat) (g : Game), gs !! i = Some g -> gameNumber g = Z.of_nat i + 1.

(** A game one of the two teams of the match has won. *)
Definition decisive (m : Match) (g : Game) : Prop :=
  winner g = Some (teamAId m) \/ winner g = Some (teamBId m).

(** ** Queries: the statics of the Match model and the handlers that read

    A query answers with the documents it finds, each with its [_id].
    [find] takes them in the order of the collection; [sort] orders them by
    the scheduled time, [skip] and [limit] cut the answer as the database
    does: no limit for 0, the absolute value for a negative limit, and an
    error for a negative skip. *)


Definition Found : Type := ObjectId * Match.

Definition find (P : Match -> bool) (db : DB) : list Found :=
  map_to_list (filter (fun kv : ObjectId * Match => P kv.2 = true) (matches db)).

(** [.sort({ scheduleAt: 1 })] *)
Definition earlier (a b : Found) : Prop := scheduleAt a.2 <= scheduleAt b.2.

#[global] Instance earlier_dec : RelDecision earlier.
Proof. intros a b. unfold earlier. apply _. Defined.

#[global] Instance earlier_trans : Transitive earlier.
Proof. intros a b c. unfold earlier. lia. Qed.

#[global] Instance earlier_total : Total earlier.
Proof. intros a b. unfold earlier. lia. Qed.

Definition sort_scheduleAt (l : list Found) : list Found := merge_sort earlier l.

Definition limit {A} (n : Z) (l : list A) : list A :=
  if n =? 0 then l else take (Z.to_nat (Z.abs n)) l.

Definition skip {A} (n : Z) (l : list A) : option (list A) :=
  if n <? 0 then None else Some (drop (Z.to_nat n) l).

Module MatchStatics.

Definition findByTournament (tid : ObjectId) (db : DB) : list Found :=
  sort_scheduleAt (find (fun m => bool_decide (tournamentId m = tid)) db).

Definition findByCompetitor (competitorId : ObjectId) (db : DB) : list Found :=
  find (fun m => bool_decide (teamAId m = competitorId)
                 || bool_decide (teamBId m = competitorId)) db.

Definition findUpcoming (now : Date) (db : DB) : list Found :=
  sort_scheduleAt
    (find (fun m => bool_decide (status m = scheduled) && (now <=? scheduleAt m))
       db).

Definition findOngoing (db : DB) : list Found :=
  find (fun m => bool_decide (status m = ongoing)) db.

End MatchStatics.

Record Pagination := mkPagination {
  current : Z;
  pages : option Z;
  total : Z
}.

(** The answer of a handler that lists matches. *)
Record ListResponse := mkListResponse {
  lr_status : Z;
  lr_success : bool;
  lr_message : option string;
  lr_matches : list Found;
  lr_pagination : option Pagination
}.

(** [countDocuments({ tournamentId })] *)
Definition countByTournament (tid : ObjectId) (db : DB) : Z :=
  Z.of_nat (length (find (fun m => bool_decide (tournamentId m = tid)) db)).

(** [MatchController.getMatchById]; the answer to a match that is found
    carries no message. *)
Definition getMatchById (db : DB) (id : ObjectId) : Response :=
  match matches db !! id with
  | None => fail 404 "Match not found"
  | Some match_ => mkResponse 200 true "" [] (Some match_)
  end.

(** [MatchController.deleteMatch] *)
Definition deleteMatch (db : DB) (id : ObjectId) : DB * Response :=
  match matches db !! id with
  | None => (db, fail 404 "Match not found")
  | Some _ =>
      (mkDB (tournaments db) (competitors db) (delete id (matches db)),
       ok 200 "Match deleted successfully" None)
  end.

(** [MatchController.getMatchesByTournament]; [page] and [limit] default
    to 1 and 20. [Math.ceil(total / limit)] is no number when the limit
    is 0. *)
Definition getMatchesByTournament (db : DB) (tournamentId : ObjectId)
    (page limit_ : option Z) : ListResponse :=
  let page := default 1 page in
  let limit_ := default 20 limit_ in
  match skip ((page - 1) * limit_)
          (MatchStatics.findByTournament tournamentId db) with
  | Some found =>
      let total := countByTournament tournamentId db in
      mkListResponse 200 true None (limit (limit_ * 1) found)
        (Some (mkPagination page
                 (if limit_ =? 0 then None
                  else Some (Math_ceil_div total limit_))
                 total))
  | None =>
      mkListResponse 500 false
        (Some "Server error while fetching tournament matches") [] None
  end.

(** [MatchController.getMatchesByCompetitor] *)
Definition getMatchesByCompetitor (db : DB) (competitorId : ObjectId)
    : ListResponse :=
  mkListResponse 200 true None
    (MatchStatics.findByCompetitor competitorId db) None.

(** [MatchController.getUpcomingMatches]; [limit] defaults to 10. *)
Definition getUpcomingMatches (now : Date) (db : DB) (limit_ : option Z)
    : ListResponse :=
  mkListResponse 200 true None
    (limit (default 10 limit_) (MatchStatics.findUpcoming now db)) None.

(** [MatchController.getOngoingMatches] *)
Definition getOngoingMatches (db : DB) : ListResponse :=
  mkListResponse 200 true None (MatchStatics.findOngoing db) None.

Module TournamentController.

(** [deleteTournament]: the tournament goes, and with it its competitors
    and its matches. *)
Definition deleteTournament (db : DB) (id : ObjectId) : DB * Response :=
  if bool_decide (id ∈ tournaments db) then
    (mkDB (tournaments db ∖ {[ id ]})
       (filter (fun kc : ObjectId * Competitor => c_tournamentId kc.2 <> id)
          (competitors db))
       (filter (fun km : ObjectId * Match => tournamentId km.2 <> id)
          (matches db)),
     ok 200 "Tournament deleted successfully" None)
  else (db, fail 404 "Tournament not found").

End TournamentController.

(** Three scheduled matches, for the times 80, 90 and 70. *)
Definition three_scheduled : DB :=
  store_match 12%N (set_scheduleAt 70 fresh)
    (store_match 11%N (set_scheduleAt 90 fresh)
       (store_match 10%N (set_scheduleAt 80 fresh) db0)).

(** ** The Tournament model: teams and registration

    The part of a tournament document its team methods read or write. What
    [save] does with the document is left open: the methods are embedded
    with the promise of [save] as a parameter. *)

Module Tournament.

Inductive TStatus := upcoming | t_ongoing | t_completed | t_cancelled.

#[global] Instance TStatus_eq_dec : EqDecision TStatus.
Proof. solve_decision. Defined.

Record t := mk {
  status : TStatus;
  maxPlayers : Z;
  currentPlayers : Z;
  registrationDeadline : Date;
  competitors : list ObjectId
}.

(** What a call of a method comes to: an exception, the promise of a
    [save] of the mutated document, or the document itself. *)
Inductive Outcome (P : Type) :=
| Throws (message : string)
| Saves (this : t) (promise : P)
| Returns (this : t).
Arguments Throws {P} message.
Arguments Saves {P} this promise.
Arguments Returns {P} this.

(** The document in memory after the call. *)
Definition after {P} (this : t) (o : Outcome P) : t :=
  match o with
  | Throws _ => this
  | Saves this' _ => this'
  | Returns this' => this'
  end.

Section Methods.
Context {P : Type} (save : t -> P).

Definition addTeam (this : t) (competitorId : ObjectId) : Outcome P :=
  if currentPlayers this >=? maxPlayers this then Throws "Tournament is full"
  else if negb (bool_decide (competitorId ∈ competitors this)) then
    let this := mk (status this) (maxPlayers this) (currentPlayers this)
                  (registrationDeadline this)
                  (competitors this ++ [competitorId]) in
    let this := mk (status this) (maxPlayers this) (currentPlayers this + 1)
                  (registrationDeadline this) (competitors this) in
    Saves this (save this)
  else Returns this.

(** [indexOf], then [splice(index, 1)]: the first occurrence goes. *)
Fixpoint remove_first (competitorId : ObjectId) (l : list ObjectId)
    : list ObjectId :=
  match l with
  | [] => []
  | x :: l => if bool_decide (x = competitorId) then l
              else x :: remove_first competitorId l
  end.

Definition removeTeam (this : t) (competitorId : ObjectId) : Outcome P :=
  if bool_decide (competitorId ∈ competitors this) then
    let this := mk (status this) (maxPlayers this) (currentPlayers this)
                  (registrationDeadline this)
                  (remove_first competitorId (competitors this)) in
    let this := mk (status this) (maxPlayers this)
                  (Z.max 0 (currentPlayers this - 1))
                  (registrationDeadline this) (competitors this) in
    Saves this (save this)
  else Returns this.

End Methods.

Definition isFull (this : t) : bool :=
  currentPlayers this >=? maxPlayers this.

Definition isRegistrationOpen (now : Date) (this : t) : bool :=
  (now <? registrationDeadline this)
  && bool_decide (status this = upcoming) && negb (isFull this).

(** The teams are counted, each once, and fit the tournament. *)
Definition counted (this : t) : Prop :=
  NoDup (competitors this) /\
  currentPlayers this = Z.of_nat (length (competitors this)) /\
  currentPlayers this <= maxPlayers this.

End Tournament.

(** ** The Competitor model: team members *)

Module TeamMembers.

Record Member := mkMember {
  userId : ObjectId;
  role : string;
  joinDate : Date
}.

(** [teamMembers.find(member => member.userId.equals(userId))] *)
Definition is_member (u : ObjectId) (members : list Member) : bool :=
  bool_decide (Exists (fun member => userId member = u) members).

(** [addTeamMember(userId, role = 'member')] on the [teamMembers] of the
    document: the members after the call, and whether the document is
    saved. A member that is pushed gets the time of the call as its
    [joinDate], the default of the schema. *)
Definition addTeamMember (now : Date) (members : list Member)
    (u : ObjectId) (r : option string) : list Member * bool :=
  let r := default "member" r in
  if negb (is_member u members)
  then (members ++ [mkMember u r now], true)
  else (members, false).

(** [removeTeamMember(userId)]: always saved. *)
Definition removeTeamMember (members : list Member) (u : ObjectId)
    : list Member * bool :=
  (List.filter (fun member => negb (bool_decide (userId member = u))) members,
   true).

End TeamMembers.

(** A tournament for four teams, with the teams 1 and 2, open until 500. *)
Definition open_tournament : Tournament.t :=
  Tournament.mk Tournament.upcoming 4 2 500 [1%N; 2%N].

Definition duo : list TeamMembers.Member :=
  [TeamMembers.mkMember 5%N "captain" 10; TeamMembers.mkMember 6%N "member" 20].

(** ** The calls behind a request *)

(** The document a method of the model leaves of the document [m]. *)
Inductive method_step (m : Match) : Match -> Prop :=
| step_start now : method_step m (start now m).1
| step_setResult now res a b : method_step m (setResult now m res a b).1
| step_reschedule d : method_step m (rescheduleNewDate m d).1
| step_addGame now g : method_step m (addGame now m g).1
| step_cancel reason : method_step m (cancel m reason).1
| step_postpone reason : method_step m (postpone m reason).1.

(** What status, times and winner of a match tell: a completed match has
    an end time, an ongoing match has a start time, and a winner is one of
    the two teams. *)
Definition coherent (m : Match) : Prop :=
  (status m = completed -> is_Some (endTime m)) /\
  (status m = ongoing -> is_Some (startTime m)) /\
  (forall w, winnerId m = Some w -> w = teamAId m \/ w = teamBId m).

Definition db_coherent (db : DB) : Prop :=
  forall id m, matches db !! id = Some m -> coherent m.

(** ** Basic facts *)

(** Closes [valid_fields] of a closed document, field by field. *)
Ltac valid_now :=
  split; first [reflexivity | (vm_compute; congruence) | constructor
               | discriminate].

(** [Math.ceil(n / 2)] is the least integer [r] with [n <= 2 * r]. *)
Lemma Math_ceil_div_2 (n : Z) :
  n <= 2 * Math_ceil_div n 2 < n + 2.
Proof.
  unfold Math_ceil_div.
  pose proof (Z.div_mod (- n) 2 ltac:(lia)) as Hdm.
  pose proof (Z.mod_pos_bound (- n) 2 ltac:(lia)) as Hb.
  lia.
Qed.

Lemma Math_ceil_div_2_pos (n : Z) : 1 <= n -> 1 <= Math_ceil_div n 2.
Proof. pose proof (Math_ceil_div_2 n). lia. Qed.

Lemma wins_snoc (team : ObjectId) (gs : list Game) (g : Game) :
  wins team (gs ++ [g]) = wins team gs + (if won_by team g then 1 else 0).
Proof.
  unfold wins. rewrite List.filter_app, length_app. simpl.
  destruct (won_by team g); simpl; lia.
Qed.

Lemma wins_nonneg (team : ObjectId) (gs : list Game) : 0 <= wins team gs.
Proof. unfold wins. lia. Qed.

(** What the hook accepts. *)
Lemma pre_save_None (m : Match) :
  pre_save m = None <->
  teamAId m <> teamBId m /\
  (forall e s, endTime m = Some e -> startTime m = Some s -> s < e).
Proof.
  unfold pre_save. case_bool_decide as Hab.
  - split; [discriminate | intros [? _]; contradiction].
  - destruct (endTime m) as [e|], (startTime m) as [s|];
      try (split; [intros _; split; [assumption | intros; congruence] | reflexivity]).
    destruct (Z.leb_spec e s).
    + split; [discriminate |]. intros [_ H']. specialize (H' e s eq_refl eq_refl). lia.
    + split; [| reflexivity]. intros _. split; [assumption |].
      intros e' s' [= <-] [= <-]. assumption.
Qed.

Lemma save_Resolved (m m' : Match) :
  save m = Resolved m' <-> m' = m /\ validate m = [] /\ pre_save m = None.
Proof.
  unfold save. destruct (validate m) as [|err errs].
  - destruct (pre_save m) as [msg|].
    + split; [discriminate | intros (_ & _ & [=])].
    + split; [intros [= <-]; auto | intros (-> & _ & _); reflexivity].
  - split; [discriminate | intros (_ & [=] & _)].
Qed.

Lemma save_is_resolved (m : Match) :
  is_resolved (save m) = true <-> validate m = [] /\ pre_save m = None.
Proof.
  unfold save. destruct (validate m); [destruct (pre_save m) |]; simpl;
    split; try discriminate; try tauto; intros [? ?]; discriminate.
Qed.

Lemma check_nil (failed : bool) (msg : Message) :
  check failed msg = [] <-> failed = false.
Proof. destruct failed; simpl; split; congruence. Qed.


(** The length in code units is at most the number of bytes. *)
Lemma js_length_le (s : string) : (js_length s <= String.length s)%nat.
Proof.
  assert (H : forall n s, (String.length s <= n)%nat ->
                          (js_length s <= String.length s)%nat).
  { induction n as [|n IH]; intros [|c s1] Hn; simpl in *; try lia.
    assert (H1 : (js_length s1 <= String.length s1)%nat) by (apply IH; lia).
    destruct (240 <=? Ascii.N_of_ascii c)%N;
      [| destruct (224 <=? Ascii.N_of_ascii c)%N;
         [| destruct (192 <=? Ascii.N_of_ascii c)%N]].
    - destruct s1 as [|c1 [|c2 [|c3 s4]]]; simpl in *; try lia.
      assert (js_length s4 <= String.length s4)%nat by (apply IH; lia). lia.
    - destruct s1 as [|c1 [|c2 s3]]; simpl in *; try lia.
      assert (js_length s3 <= String.length s3)%nat by (apply IH; lia). lia.
    - destruct s1 as [|c1 s2]; simpl in *; try lia.
      assert (js_length s2 <= String.length s2)%nat by (apply IH; lia). lia.
    - lia. }
  apply (H (String.length s)). lia.
Qed.

Lemma validate_nil (m : Match) : validate m = [] <-> valid_fields m.
Proof.
  unfold validate. rewrite !app_nil, !check_nil.
  rewrite !Z.ltb_ge, !negb_false_iff, bool_decide_eq_true.
  split.
  - intros (? & ? & ? & ? & ? & ? & ? & Hn). split; try assumption.
    intros s Hs. rewrite Hs in Hn. apply Z.ltb_ge in Hn. assumption.
  - intros [? ? ? ? ? ? ? Hn]. repeat split; try assumption.
    destruct (notes m) as [s|]; [| reflexivity].
    apply Z.ltb_ge. apply Hn. reflexivity.
Qed.


Lemma save_persistable (m : Match) : save m = Resolved m <-> persistable m.
Proof.
  rewrite save_Resolved, validate_nil, pre_save_None. unfold persistable. tauto.
Qed.

Lemma save_rejects (m : Match) (e : SaveError) :
  save m = Rejected e -> ~ persistable m.
Proof. intros H Hp. apply save_persistable in Hp. congruence. Qed.

Lemma save_cases (m : Match) :
  (save m = Resolved m /\ persistable m) \/
  (exists e, save m = Rejected e /\ ~ persistable m).
Proof.
  destruct (save m) as [m'|e] eqn:H.
  - pose proof H as H'. apply save_Resolved in H' as (-> & _). left.
    split; [reflexivity | apply save_persistable; assumption].
  - right. exists e. split; [reflexivity | eapply save_rejects; eassumption].
Qed.

(** ** Best-of-N resolution *)


(** The document [addGame] leaves in memory, by the two tests it makes. *)
Lemma addGame_this (now : Date) (m : Match) (g : Game) :
  let m1 := set_games (games m ++ [g]) m in
  (addGame now m g).1 =
    if Math_ceil_div (bestOf m) 2 <=? wins (teamAId m) (games m ++ [g]) then
      set_endTime (Some now)
        (set_status completed (set_winnerId (Some (teamAId m)) m1))
    else if Math_ceil_div (bestOf m) 2 <=? wins (teamBId m) (games m ++ [g]) then
      set_endTime (Some now)
        (set_status completed (set_winnerId (Some (teamBId m)) m1))
    else m1.
Proof. unfold addGame. simpl. rewrite !Z.geb_leb. reflexivity. Qed.

Lemma addGame_undecided (now : Date) (m : Match) (g : Game) :
  wins (teamAId m) (games m ++ [g]) < Math_ceil_div (bestOf m) 2 ->
  wins (teamBId m) (games m ++ [g]) < Math_ceil_div (bestOf m) 2 ->
  (addGame now m g).1 = set_games (games m ++ [g]) m.
Proof.
  intros HA HB. rewrite addGame_this. simpl.
  destruct (Z.leb_spec (Math_ceil_div (bestOf m) 2)
              (wins (teamAId m) (games m ++ [g]))); [lia |].
  destruct (Z.leb_spec (Math_ceil_div (bestOf m) 2)
              (wins (teamBId m) (games m ++ [g]))); [lia | reflexivity].
Qed.

(** C1 as stated does not hold: the count of a team can reach the
    threshold without that team becoming the winner. On the best of one
    that team 2 has won, a game won by team 1 is added: the count of team 2
    is 1, which is the threshold, and the winner is team 1. The handlers
    give the same: after a game for each team the stored winner is
    team 1. *)
Lemma addGame_second_side_counterexample :
  Math_ceil_div (bestOf won_by_team_2) 2 = 1 /\
  wins (teamBId won_by_team_2) (games won_by_team_2 ++ [won 2 1%N]) = 1 /\
  winnerId (addGame 300 won_by_team_2 (won 2 1%N)).1 = Some 1%N /\
  winnerId (addGame 300 won_by_team_2 (won 2 1%N)).1
    <> Some (teamBId won_by_team_2) /\
  (winnerId <$> matches (run db0 (take 3 one_game_each)) !! 9%N)
    = Some (Some 2%N) /\
  (winnerId <$> matches (run db0 one_game_each) !! 9%N) = Some (Some 1%N).
Proof. repeat split; vm_compute; congruence. Qed.

(** C1, as the method has it. After [addGame] has appended the game, the
    wins of teamA and of teamB are counted over the whole game sequence,
    against the threshold [ceil(bestOf / 2)], the least integer [r] with
    [bestOf <= 2 * r]. If teamA's count reaches it the winner is teamA; if
    teamA's does not and teamB's does the winner is teamB (teamA is tested
    first); either way the status becomes completed and the end time is the
    time of the call. If neither count reaches it, status, winner and end
    time are as they were. For a match of two distinct teams that was not
    decided before the game, at most one count reaches the threshold, so
    that teamB is the winner whenever its count does. *)
Theorem addGame_best_of (now : Date) (m : Match) (g : Game) :
  let this := (addGame now m g).1 in
  let required := Math_ceil_div (bestOf m) 2 in
  let teamAWins := wins (teamAId m) (games m ++ [g]) in
  let teamBWins := wins (teamBId m) (games m ++ [g]) in
  games this = games m ++ [g] /\
  (addGame now m g).2 = save this /\
  bestOf m <= 2 * required < bestOf m + 2 /\
  (required <= teamAWins ->
     winnerId this = Some (teamAId m) /\ status this = completed /\
     endTime this = Some now) /\
  (teamAWins < required -> required <= teamBWins ->
     winnerId this = Some (teamBId m) /\ status this = completed /\
     endTime this = Some now) /\
  (teamAWins < required -> teamBWins < required ->
     winnerId this = winnerId m /\ status this = status m /\
     endTime this = endTime m) /\
  (teamAId m <> teamBId m ->
   wins (teamAId m) (games m) < required ->
   wins (teamBId m) (games m) < required ->
   required <= teamBWins ->
     winnerId this = Some (teamBId m) /\ status this = completed /\
     endTime this = Some now).
Proof.
  intros this required teamAWins teamBWins.
  assert (Hthis : this =
    let m1 := set_games (games m ++ [g]) m in
    if required <=? teamAWins then
      set_endTime (Some now)
        (set_status completed (set_winnerId (Some (teamAId m)) m1))
    else if required <=? teamBWins then
      set_endTime (Some now)
        (set_status completed (set_winnerId (Some (teamBId m)) m1))
    else m1) by apply addGame_this.
  simpl in Hthis.
  split; [| split; [reflexivity | split; [apply Math_ceil_div_2 |]]].
  - rewrite Hthis.
    destruct (required <=? teamAWins); [reflexivity |].
    destruct (required <=? teamBWins); reflexivity.
  - assert (Hone : teamAId m <> teamBId m ->
              wins (teamAId m) (games m) < required ->
              wins (teamBId m) (games m) < required ->
              required <= teamBWins -> teamAWins < required).
    { intros Hab HA0 HB0 HB. subst teamAWins teamBWins.
      rewrite wins_snoc in *. unfold won_by in *.
      destruct (winner g) as [w|]; [| lia].
      repeat case_bool_decide; subst; try lia; contradiction. }
    rewrite Hthis.
    destruct (Z.leb_spec required teamAWins) as [HA | HA];
      [| destruct (Z.leb_spec required teamBWins) as [HB | HB]];
      repeat split; intros; simpl; try reflexivity; try lia;
      exfalso; specialize (Hone ltac:(assumption) ltac:(assumption)
                             ltac:(assumption) ltac:(assumption)); lia.
Qed.

(** The two runs of the specification: best of three with winners
    [A; B; A] is completed with winner A at the third game; best of five
    with winners [A; A] is still ongoing. *)
Lemma addGame_best_of_witness :
  (let m2 := (addGame 300 (addGame 200 (started 3) (won 1 1%N)).1 (won 2 2%N)).1 in
   status m2 = ongoing /\
   winnerId (addGame 400 m2 (won 3 1%N)).1 = Some 1%N /\
   status (addGame 400 m2 (won 3 1%N)).1 = completed /\
   endTime (addGame 400 m2 (won 3 1%N)).1 = Some 400) /\
  (let m1 := (addGame 200 (started 5) (won 1 1%N)).1 in
   winnerId (addGame 300 m1 (won 2 1%N)).1 = None /\
   status (addGame 300 m1 (won 2 1%N)).1 = ongoing /\
   endTime (addGame 300 m1 (won 2 1%N)).1 = None).
Proof.
  split.
  - intros m2. split; [reflexivity |].
    destruct (addGame_best_of 400 m2 (won 3 1%N)) as (_ & _ & _ & HA & _).
    apply HA. vm_compute. discriminate.
  - intros m1.
    destruct (addGame_best_of 300 m1 (won 2 1%N))
      as (_ & _ & _ & _ & _ & HN & _).
    apply HN; vm_compute; reflexivity.
Defined.

(** [addGame] writes [games], and perhaps [winnerId], [status] and
    [endTime]; the teams and the format are left alone. *)
Lemma addGame_frame (now : Date) (m : Match) (g : Game) :
  let this := (addGame now m g).1 in
  teamAId this = teamAId m /\ teamBId this = teamBId m /\
  bestOf this = bestOf m /\ startTime this = startTime m /\
  games this = games m ++ [g].
Proof.
  unfold addGame. simpl.
  destruct (_ >=? _); [| destruct (_ >=? _)]; simpl; repeat split.
Qed.

Lemma wins_winnerless (team : ObjectId) (gs : list Game) :
  Forall (fun g => winner g = None) gs -> wins team gs = 0.
Proof.
  unfold wins. induction 1 as [|g gs Hg _ IH]; [reflexivity |].
  simpl. unfold won_by at 1. rewrite Hg. exact IH.
Qed.


(** C9. A game without a winner adds to neither team's count; and when
    no game of the match has a winner, however many such games are added
    (the format being a best of [N >= 1], as the schema demands), both
    counts stay at zero and [addGame] never touches the status, the winner
    or the end time: the match is not completed by them. *)
Theorem winnerless_games_never_complete :
  (forall (team : ObjectId) (gs : list Game) (g : Game),
     winner g = None -> wins team (gs ++ [g]) = wins team gs) /\
  (forall (m : Match) (gs : list (Date * Game)),
     1 <= bestOf m ->
     Forall (fun g => winner g = None) (games m) ->
     Forall (fun ng => winner ng.2 = None) gs ->
     let this := addGames m gs in
     games this = games m ++ gs.*2 /\
     wins (teamAId m) (games this) = 0 /\
     wins (teamBId m) (games this) = 0 /\
     status this = status m /\ winnerId this = winnerId m /\
     endTime this = endTime m).
Proof.
  split.
  - intros team gs g Hg. rewrite wins_snoc. unfold won_by. rewrite Hg. lia.
  - intros m gs. revert m.
    induction gs as [| [now g] gs IH]; intros m HN Hm Hgs; simpl.
    + rewrite app_nil_r, !wins_winnerless by assumption. repeat split.
    + apply Forall_cons in Hgs as [Hg Hgs]. simpl in Hg.
      pose proof (addGame_frame now m g) as (HA & HB & Hb & _ & Hg').
      assert (Hall : Forall (fun g => winner g = None) (games m ++ [g])).
      { apply Forall_app. split; [assumption |]. constructor; [assumption | constructor]. }
      pose proof (Math_ceil_div_2_pos _ HN) as Hreq.
      pose proof (addGame_undecided now m g) as Hkeep.
      rewrite !wins_winnerless in Hkeep by assumption.
      specialize (Hkeep ltac:(lia) ltac:(lia)).
      specialize (IH (addGame now m g).1).
      assert (Hs : status (addGame now m g).1 = status m) by (rewrite Hkeep; reflexivity).
      assert (Hw : winnerId (addGame now m g).1 = winnerId m) by (rewrite Hkeep; reflexivity).
      assert (He : endTime (addGame now m g).1 = endTime m) by (rewrite Hkeep; reflexivity).
      rewrite Hb, Hg', HA, HB, Hs, Hw, He in IH.
      rewrite <- app_assoc in IH. simpl in IH.
      apply IH; assumption.
Qed.

Lemma winnerless_games_never_complete_witness :
  let this :=
    addGames (started 3) [(200, no_winner 1); (300, no_winner 2);
                          (400, no_winner 3); (500, no_winner 4)] in
  length (games this) = 4%nat /\ status this = ongoing /\ winnerId this = None.
Proof.
  intros this.
  destruct winnerless_games_never_complete as [_ H].
  destruct (H (started 3)
              [(200, no_winner 1); (300, no_winner 2);
               (400, no_winner 3); (500, no_winner 4)])
    as (Hg & _ & _ & Hs & Hw & _).
  - simpl. lia.
  - constructor.
  - repeat constructor.
  - fold this in Hg, Hs, Hw. rewrite Hg, Hs, Hw. repeat split.
Defined.

(** ** [addGame] and the status *)

Lemma is_resolved_save_status (s : Status) (m : Match) :
  is_resolved (save (set_status s m)) = is_resolved (save m).
Proof.
  unfold save.
  change (validate (set_status s m)) with (validate m).
  change (pre_save (set_status s m)) with (pre_save m).
  destruct (validate m); [destruct (pre_save m) |]; reflexivity.
Qed.

(** On a document whose status was overwritten, [addGame] does what it does
    on the document itself, and a status it does not set is carried over. *)
Lemma addGame_set_status (now : Date) (m : Match) (g : Game) (s : Status) :
  (addGame now (set_status s m) g).1 = (addGame now m g).1 \/
  (addGame now (set_status s m) g).1 = set_status s (addGame now m g).1.
Proof.
  rewrite !addGame_this. simpl.
  destruct (_ <=? _); [left; reflexivity |].
  destruct (_ <=? _); [left; reflexivity | right; reflexivity].
Qed.

(** C10. [addGame] does not look at the status. Whatever status [s] the
    match has, the game is appended and the counts are evaluated; winner and
    end time come out as for any other status, the status is completed or
    still [s], and whether the save is accepted does not depend on [s]. The
    handler answers alike for every status. For a stored match of any
    status the handler builds the game from the body and calls the method:
    when the document it leaves is accepted by [save], the database holds
    that document, with the game appended, under the same id, nothing else
    in it changes, and the answer is 200 with the document; when it is not
    accepted, the database is as it was and the answer is 500, which comes
    from validation or the hook, never from the status. A game added to a
    cancelled best-of-one match completes it with a winner, by the method
    and through the handler. *)
Theorem addGame_any_status :
  (forall (now : Date) (m : Match) (g : Game) (s : Status),
     let r := addGame now (set_status s m) g in
     games r.1 = games m ++ [g] /\
     winnerId r.1 = winnerId (addGame now m g).1 /\
     endTime r.1 = endTime (addGame now m g).1 /\
     (status r.1 = completed \/ status r.1 = s) /\
     is_resolved r.2 = is_resolved (addGame now m g).2) /\
  (forall (now : Date) (db : DB) (id : ObjectId) (body : GameBody)
          (m : Match) (s : Status),
     let r := MatchController.addGame now (store_match id m db) id body in
     let r' := MatchController.addGame now
                 (store_match id (set_status s m) db) id body in
     res_status r'.2 = res_status r.2 /\ res_success r'.2 = res_success r.2 /\
     res_message r'.2 = res_message r.2) /\
  (forall (now : Date) (db : DB) (id : ObjectId) (body : GameBody)
          (m : Match),
     matches db !! id = Some m ->
     let g := MatchController.gameData_of m body in
     let this := (addGame now m g).1 in
     let r := MatchController.addGame now db id body in
     games this = games m ++ [g] /\
     (persistable this ->
      r = (store_match id this db,
           ok 200 "Game added successfully" (Some this)) /\
      matches r.1 !! id = Some this /\
      (forall id', id' <> id -> matches r.1 !! id' = matches db !! id') /\
      competitors r.1 = competitors db /\ tournaments r.1 = tournaments db) /\
     (~ persistable this ->
      r = (db, fail 500 "Server error while adding game"))) /\
  (let r := addGame 200 (set_status cancelled (started 1)) (won 1 1%N) in
   status r.1 = completed /\ winnerId r.1 = Some 1%N /\ r.2 = Resolved r.1) /\
  (let r := MatchController.addGame 200 db_cancelled 9%N (game_for 1%N) in
   (status <$> matches db_cancelled !! 9%N) = Some cancelled /\
   (status <$> matches r.1 !! 9%N) = Some completed /\
   (winnerId <$> matches r.1 !! 9%N) = Some (Some 1%N) /\
   res_status r.2 = 200).
Proof.
  split; [| split; [| split; [| split]]]; [| | | | vm_compute; repeat split].
  - intros now m g s r. subst r.
    assert (Hres : is_resolved (addGame now (set_status s m) g).2 =
                   is_resolved (addGame now m g).2).
    { change ((addGame now (set_status s m) g).2)
        with (save (addGame now (set_status s m) g).1).
      change ((addGame now m g).2) with (save (addGame now m g).1).
      destruct (addGame_set_status now m g s) as [-> | ->];
        [reflexivity | apply is_resolved_save_status]. }
    split; [apply (addGame_frame now (set_status s m) g) |].
    split; [| split; [| split; [| exact Hres]]].
    + destruct (addGame_set_status now m g s) as [-> | ->]; reflexivity.
    + destruct (addGame_set_status now m g s) as [-> | ->]; reflexivity.
    + rewrite addGame_this. simpl.
      destruct (_ <=? _); [left; reflexivity |].
      destruct (_ <=? _); [left; reflexivity | right; reflexivity].
  - intros now db id body m s.
    unfold MatchController.addGame, store_match. cbn [matches].
    rewrite !lookup_insert_eq.
    change (MatchController.gameData_of (set_status s m) body)
      with (MatchController.gameData_of m body).
    set (g := MatchController.gameData_of m body).
    assert (Hres : is_resolved (addGame now (set_status s m) g).2 =
                   is_resolved (addGame now m g).2).
    { change ((addGame now (set_status s m) g).2)
        with (save (addGame now (set_status s m) g).1).
      change ((addGame now m g).2) with (save (addGame now m g).1).
      destruct (addGame_set_status now m g s) as [-> | ->];
        [reflexivity | apply is_resolved_save_status]. }
    destruct (addGame now (set_status s m) g) as [t1 [a1|e1]],
             (addGame now m g) as [t2 [a2|e2]]; simpl in *;
      try discriminate; repeat split.
  - intros now db id body m Hm g this r.
    split; [apply (addGame_frame now m g) |].
    assert (Hr : r = match save this with
                     | Resolved _ =>
                         (store_match id this db,
                          ok 200 "Game added successfully" (Some this))
                     | Rejected _ =>
                         (db, fail 500 "Server error while adding game")
                     end).
    { subst r. unfold MatchController.addGame. rewrite Hm. fold g.
      change (addGame now m g) with (this, save this).
      destruct (save this); [| reflexivity].
      unfold store_match. cbn [matches]. rewrite lookup_insert_eq.
      reflexivity. }
    split.
    + intros Hp. apply save_persistable in Hp. rewrite Hp in Hr.
      split; [exact Hr |]. rewrite Hr. unfold store_match. cbn.
      split; [apply lookup_insert_eq |].
      split; [| split; reflexivity].
      intros id' Hne. apply lookup_insert_ne. congruence.
    + intros Hp. destruct (save_cases this) as [[_ Hp'] | (e & He & _)];
        [contradiction |].
      rewrite He in Hr. exact Hr.
  - vm_compute. repeat split.
Qed.

(** The cancelled best of one in the database: the game for team 1 is
    added, and the stored match is the completed one. *)
Lemma addGame_any_status_witness :
  matches db_cancelled !! 9%N = Some (set_status cancelled (started 1)) /\
  MatchController.addGame 200 db_cancelled 9%N (game_for 1%N) =
    (store_match 9%N
       (addGame 200 (set_status cancelled (started 1))
          (MatchController.gameData_of (set_status cancelled (started 1))
             (game_for 1%N))).1 db_cancelled,
     ok 200 "Game added successfully"
       (Some (addGame 200 (set_status cancelled (started 1))
          (MatchController.gameData_of (set_status cancelled (started 1))
             (game_for 1%N))).1)).
Proof.
  assert (Hm : matches db_cancelled !! 9%N
               = Some (set_status cancelled (started 1)))
    by apply lookup_insert_eq.
  split; [exact Hm |].
  destruct addGame_any_status as (_ & _ & Hh & _).
  destruct (Hh 200 db_cancelled 9%N (game_for 1%N) _ Hm) as (_ & Hok & _).
  apply Hok.
  split; [valid_now |].
  split; [discriminate |]. simpl. intros e s [= <-] [= <-]. lia.
Defined.

(** ** Recording a result *)

Lemma valid_fields_frame (m m' : Match) :
  scheduleAt m' = scheduleAt m ->
  result m' = result m -> score m' = score m -> round m' = round m ->
  bracket m' = bracket m -> bestOf m' = bestOf m -> notes m' = notes m ->
  valid_fields m -> valid_fields m'.
Proof.
  intros Hd Hr Hs Hro Hb Hbo Hn [? ? ? ? ? ? ? ?].
  split; rewrite ?Hd, ?Hr, ?Hs, ?Hro, ?Hb, ?Hbo, ?Hn; assumption.
Qed.

(** C2 as stated does not hold: equal scores recorded on a match that has
    a winner leave that winner in place. The match won 2-0 by team 1 is
    recorded again as 2-2, the save is accepted, and the winner is still
    team 1. *)
Lemma setResult_tie_keeps_winner_counterexample :
  winnerId finished = Some 1%N /\
  (setResult 400 finished "" 2 2).2 = Resolved (setResult 400 finished "" 2 2).1 /\
  score (setResult 400 finished "" 2 2).1 = mkScore 2 2 /\
  winnerId (setResult 400 finished "" 2 2).1 = Some 1%N /\
  winnerId (setResult 400 finished "" 2 2).1 <> None.
Proof. repeat split; vm_compute; congruence. Qed.

(** C2, as the method has it. [setResult] stores the result text and the
    two scores; the winner becomes the team with the strictly greater
    score, and with equal scores no winner is assigned: the winner is what
    it was, so that a match without a winner stays without one; the status
    becomes completed and the end time is the time of the call. The promise
    is that of saving this document: when it resolves, the end time is
    strictly after the start time, if there is one; and it does resolve for
    a valid match of two distinct teams, scores that are not negative and a
    text of at most 200 characters, when the clock has passed the start
    time. *)
Theorem setResult_records (now : Date) (m : Match) (res : string)
    (scoreA scoreB : Z) :
  let this := (setResult now m res scoreA scoreB).1 in
  let saved := (setResult now m res scoreA scoreB).2 in
  result this = res /\ score this = mkScore scoreA scoreB /\
  (scoreA > scoreB -> winnerId this = Some (teamAId m)) /\
  (scoreB > scoreA -> winnerId this = Some (teamBId m)) /\
  (scoreA = scoreB -> winnerId this = winnerId m) /\
  (scoreA = scoreB -> winnerId m = None -> winnerId this = None) /\
  status this = completed /\ endTime this = Some now /\
  startTime this = startTime m /\
  saved = save this /\
  (forall m', saved = Resolved m' ->
     m' = this /\ forall s, startTime m = Some s -> s < now) /\
  (valid_fields m -> teamAId m <> teamBId m ->
   Z.of_nat (js_length res) <= 200 -> 0 <= scoreA -> 0 <= scoreB ->
   (forall s, startTime m = Some s -> s < now) ->
   saved = Resolved this).
Proof.
  intros this saved.
  assert (Hfields : result this = res /\ score this = mkScore scoreA scoreB /\
            status this = completed /\ endTime this = Some now /\
            startTime this = startTime m /\ teamAId this = teamAId m /\
            teamBId this = teamBId m /\ round this = round m /\
            bracket this = bracket m /\ bestOf this = bestOf m /\
            notes this = notes m /\ scheduleAt this = scheduleAt m).
  { subst this. unfold setResult. simpl.
    destruct (scoreA >? scoreB); [| destruct (scoreB >? scoreA)];
      simpl; repeat split. }
  destruct Hfields
    as (Hr & Hsc & Hst & He & Hs & HA & HB & Hro & Hbr & Hbo & Hn & Hd).
  assert (Hw : (scoreA > scoreB -> winnerId this = Some (teamAId m)) /\
               (scoreB > scoreA -> winnerId this = Some (teamBId m)) /\
               (scoreA = scoreB -> winnerId this = winnerId m)).
  { subst this. unfold setResult. simpl. rewrite !Z.gtb_ltb.
    destruct (Z.ltb_spec scoreB scoreA); [| destruct (Z.ltb_spec scoreA scoreB)];
      simpl; repeat split; intros; try reflexivity; lia. }
  destruct Hw as (HwA & HwB & HwE).
  assert (HwN : scoreA = scoreB -> winnerId m = None -> winnerId this = None)
    by (intros Heq Hnone; rewrite (HwE Heq); exact Hnone).
  repeat (split; [assumption || reflexivity |]).
  split.
  - intros m' Hm'. change saved with (save this) in Hm'.
    apply save_Resolved in Hm' as (-> & _ & Hpre).
    split; [reflexivity |]. intros s Hstart.
    apply pre_save_None in Hpre as [_ Hord].
    apply (Hord now s); congruence.
  - intros Hv Hab Hlen HsA HsB Hclock. change saved with (save this).
    apply save_persistable. split; [| split].
    + destruct Hv as [? ? ? ? ? ? ? ?].
      split; rewrite ?Hd, ?Hr, ?Hsc, ?Hro, ?Hbr, ?Hbo, ?Hn; simpl; assumption.
    + congruence.
    + intros e s He' Hs'. rewrite He in He'. rewrite Hs in Hs'.
      injection He' as <-. apply Hclock. assumption.
Qed.

(** The two calls of the specification on a match started at time 100:
    3-1 makes team A the winner, 2-2 leaves the winner unset. *)
Lemma setResult_records_witness :
  (let r := setResult 200 (started 1) "" 3 1 in
   winnerId r.1 = Some 1%N /\ status r.1 = completed /\
   endTime r.1 = Some 200 /\ r.2 = Resolved r.1) /\
  (let r := setResult 200 (started 1) "" 2 2 in
   winnerId r.1 = None /\ status r.1 = completed /\ r.2 = Resolved r.1).
Proof.
  assert (Hv : valid_fields (started 1)).
  { valid_now. }
  split.
  - destruct (setResult_records 200 (started 1) "" 3 1)
      as (_ & _ & HA & _ & _ & _ & Hst & He & _ & _ & _ & Hlive).
    cbv zeta. split; [apply HA; lia | split; [exact Hst | split; [exact He |]]].
    apply Hlive; simpl; try lia; try discriminate; try assumption.
    intros s [= <-]. lia.
  - destruct (setResult_records 200 (started 1) "" 2 2)
      as (_ & _ & _ & _ & _ & HE & Hst & _ & _ & _ & _ & Hlive).
    cbv zeta. split; [apply HE; reflexivity | split; [exact Hst |]].
    apply Hlive; simpl; try lia; try discriminate; try assumption.
    intros s [= <-]. lia.
Defined.

(** ** Rescheduling, cancelling and postponing *)

(** [save] does not read the status. *)
Lemma persistable_status (s : Status) (m : Match) :
  persistable m -> persistable (set_status s m).
Proof.
  intros (Hv & Hab & Hord). split; [| split; assumption].
  eapply valid_fields_frame; [..| exact Hv]; reflexivity.
Qed.

Lemma persistable_scheduleAt (d : Date) (m : Match) :
  valid_date d = true -> persistable m -> persistable (set_scheduleAt d m).
Proof.
  intros Hd (Hv & Hab & Hord). split; [| split; assumption].
  destruct Hv as [? ? ? ? ? ? ? ?]. split; simpl; assumption.
Qed.

Lemma persistable_notes (r : string) (m : Match) :
  Z.of_nat (String.length r) <= 1000 ->
  persistable m -> persistable (set_notes (Some r) m).
Proof.
  intros Hr (Hv & Hab & Hord). split; [| split; assumption].
  destruct Hv as [? ? ? ? ? ? ? ?]. split; simpl; try assumption.
  intros s [= <-]. pose proof (js_length_le r). lia.
Qed.

(** A document whose scheduled time is an Invalid Date is not saved:
    validation rejects it. *)
Lemma save_invalid_date (m : Match) :
  valid_date (scheduleAt m) = false ->
  exists errors, save m = Rejected (ValidationError errors).
Proof.
  intros Hd. unfold save, validate. rewrite Hd. simpl.
  eexists. reflexivity.
Qed.

Lemma new_Date_valid (n : Z) : valid_date n = true -> new_Date (Some n) = n.
Proof. intros H. unfold new_Date. rewrite H. reflexivity. Qed.

Lemma new_Date_invalid (n : Z) :
  valid_date n = false -> valid_date (new_Date (Some n)) = false.
Proof. intros H. unfold new_Date. rewrite H. reflexivity. Qed.

Lemma new_Date_Some (value : option Z) :
  valid_date (new_Date value) = true -> value = Some (new_Date value).
Proof.
  destruct value as [n|]; unfold new_Date.
  - destruct (valid_date n); [reflexivity |].
    intros H. vm_compute in H. discriminate.
  - intros H. vm_compute in H. discriminate.
Qed.

Lemma falsy_Some (n : Z) : n <> 0 -> MatchController.falsy (Some n) = false.
Proof. intros H. simpl. apply Z.eqb_neq. exact H. Qed.

(** C5. Whatever the status of the match, completed included,
    [rescheduleNewDate] makes the status scheduled and, given a valid date,
    makes the scheduled time that date and changes nothing else. The
    promise is that of saving the document: a match the database holds
    (one [save] accepts) is saved so when the new date is a valid date, and
    an Invalid Date is rejected by validation. The handler, given a valid
    date that is not the number 0, stores the match for that date and
    answers with it. The handler takes no new date and the number 0 for a
    missing date and answers 400; a number that makes no valid date is not
    saved, and the answer is 500. *)
Theorem rescheduleNewDate_resets (m : Match) (newDate : Date) :
  let r := rescheduleNewDate m newDate in
  status r.1 = scheduled /\
  r.2 = save r.1 /\
  (valid_date newDate = true ->
   scheduleAt r.1 = newDate /\
   r.1 = set_status scheduled (set_scheduleAt newDate m) /\
   (persistable m -> r.2 = Resolved r.1)) /\
  (valid_date newDate = false ->
   exists errors, r.2 = Rejected (ValidationError errors)) /\
  (forall (db : DB) (id : ObjectId),
     matches db !! id = Some m -> persistable m ->
     newDate <> 0 -> valid_date newDate = true ->
     MatchController.rescheduleMatch db id (Some newDate) =
       (store_match id r.1 db,
        ok 200 "Match rescheduled successfully" (Some r.1)) /\
     (status <$> matches (store_match id r.1 db) !! id) = Some scheduled /\
     (scheduleAt <$> matches (store_match id r.1 db) !! id) = Some newDate) /\
  (forall (db : DB) (id : ObjectId),
     MatchController.rescheduleMatch db id None =
       (db, fail 400 "New date is required") /\
     MatchController.rescheduleMatch db id (Some 0) =
       (db, fail 400 "New date is required")) /\
  (forall (db : DB) (id : ObjectId),
     matches db !! id = Some m ->
     newDate <> 0 -> valid_date newDate = false ->
     MatchController.rescheduleMatch db id (Some newDate) =
       (db, fail 500 "Server error while rescheduling match")).
Proof.
  intros r.
  assert (Hsave : persistable m -> valid_date newDate = true ->
                  r.2 = Resolved r.1).
  { intros Hp Hd. apply save_persistable.
    apply persistable_status, persistable_scheduleAt; assumption. }
  split; [reflexivity |]. split; [reflexivity |].
  split; [| split; [| split; [| split]]].
  - intros Hd. split; [reflexivity |]. split; [reflexivity |].
    intros Hp. apply Hsave; assumption.
  - intros Hd. apply (save_invalid_date r.1). exact Hd.
  - intros db id Hm Hp Hn0 Hd.
    split; [| unfold store_match; cbn [matches]; rewrite lookup_insert_eq;
              split; reflexivity].
    unfold MatchController.rescheduleMatch.
    rewrite falsy_Some by assumption. rewrite Hm.
    rewrite new_Date_valid by assumption.
    specialize (Hsave Hp Hd). unfold MatchController.settle.
    fold r. destruct r as [this p]. simpl in Hsave. subst p. reflexivity.
  - intros db id. split; reflexivity.
  - intros db id Hm Hn0 Hd. unfold MatchController.rescheduleMatch.
    rewrite falsy_Some by assumption. rewrite Hm.
    unfold MatchController.settle.
    change (rescheduleNewDate m (new_Date (Some newDate)))
      with ((rescheduleNewDate m (new_Date (Some newDate))).1,
            save (rescheduleNewDate m (new_Date (Some newDate))).1).
    destruct (save_invalid_date (rescheduleNewDate m (new_Date (Some newDate))).1)
      as [e ->]; [| reflexivity].
    apply new_Date_invalid. exact Hd.
Qed.

(** A completed match goes back to scheduled. *)
Lemma rescheduleNewDate_resets_witness :
  status finished = completed /\
  (MatchController.rescheduleMatch (with_match 9%N finished) 9%N (Some 900)).1
    = with_match 9%N (set_status scheduled (set_scheduleAt 900 finished)).
Proof.
  split; [reflexivity |].
  destruct (rescheduleNewDate_resets finished 900) as (_ & _ & _ & _ & H & _).
  assert (Hp : persistable finished).
  { split; [valid_now |].
    split; [discriminate |]. simpl. intros e s [= <-] [= <-]. lia. }
  pose proof (H (with_match 9%N finished) 9%N (lookup_insert_eq _ _ _) Hp
                ltac:(lia) eq_refl) as [H' _].
  apply (f_equal fst) in H'.
  etransitivity; [exact H' |].
  unfold with_match, store_match. simpl. rewrite insert_insert_eq. reflexivity.
Defined.

(** C6. Whatever the status of the match, [cancel] makes it cancelled
    and [postpone] makes it postponed, and the notes become the reason, or
    the empty string when no reason is passed. A match the database holds is
    saved so when the reason has at most 1000 characters. The handlers pass
    the reason of the request, or the placeholder when there is none. *)
Theorem cancel_postpone_any_status (m : Match) (reason : option string) :
  let given := match reason with Some r => r | None => "" end in
  let c := cancel m reason in
  let p := postpone m reason in
  status c.1 = cancelled /\ notes c.1 = Some given /\ c.2 = save c.1 /\
  status p.1 = postponed /\ notes p.1 = Some given /\ p.2 = save p.1 /\
  (persistable m -> Z.of_nat (String.length given) <= 1000 ->
   c.2 = Resolved c.1 /\ p.2 = Resolved p.1) /\
  (forall (db : DB) (id : ObjectId),
     let passed := match reason with
                   | Some r => if bool_decide (r = "") then "No reason provided" else r
                   | None => "No reason provided"
                   end in
     matches db !! id = Some m -> persistable m ->
     Z.of_nat (String.length passed) <= 1000 ->
     (MatchController.cancelMatch db id reason).1 =
       store_match id (set_notes (Some passed) (set_status cancelled m)) db /\
     (MatchController.postponeMatch db id reason).1 =
       store_match id (set_notes (Some passed) (set_status postponed m)) db).
Proof.
  intros given c p.
  assert (Hgen : forall (s : Status) (r : string),
            persistable m -> Z.of_nat (String.length r) <= 1000 ->
            save (set_notes (Some r) (set_status s m)) =
              Resolved (set_notes (Some r) (set_status s m))).
  { intros s r Hp Hr. apply save_persistable.
    apply persistable_notes; [assumption |]. apply persistable_status, Hp. }
  assert (Hg : given = default "" reason) by (destruct reason; reflexivity).
  repeat (split; [first [reflexivity | rewrite Hg; reflexivity] |]).
  split.
  - intros Hp Hlen. rewrite Hg in Hlen.
    split; [apply (Hgen cancelled) | apply (Hgen postponed)]; assumption.
  - intros db id passed Hm Hp Hlen.
    unfold MatchController.cancelMatch, MatchController.postponeMatch.
    rewrite Hm. unfold MatchController.settle, cancel, postpone.
    change (MatchController.or_str reason "No reason provided") with passed.
    unfold default.
    rewrite !Hgen by assumption. split; reflexivity.
Qed.

Lemma finished_persistable : persistable finished.
Proof.
  split; [valid_now |].
  split; [discriminate |]. simpl. intros e s [= <-] [= <-]. lia.
Qed.

Lemma fresh_persistable : persistable fresh.
Proof.
  split; [valid_now |].
  split; [discriminate |]. simpl. intros e s [=].
Qed.

(** A completed match is cancelled; without a reason the notes are the
    empty string through the method and the placeholder through the
    handler. *)
Lemma cancel_postpone_any_status_witness :
  status finished = completed /\
  status (cancel finished None).1 = cancelled /\
  notes (cancel finished None).1 = Some "" /\
  (cancel finished None).2 = Resolved (cancel finished None).1 /\
  (postpone finished (Some "rain")).2 =
    Resolved (set_notes (Some "rain") (set_status postponed finished)) /\
  (MatchController.cancelMatch (with_match 9%N finished) 9%N None).1 =
    with_match 9%N
      (set_notes (Some "No reason provided") (set_status cancelled finished)).
Proof.
  split; [reflexivity |].
  destruct (cancel_postpone_any_status finished None)
    as (Hs & Hn & _ & _ & _ & _ & Hsave & Hh).
  split; [exact Hs |]. split; [exact Hn |].
  split; [apply Hsave; [apply finished_persistable | simpl; lia] |].
  split.
  - destruct (cancel_postpone_any_status finished (Some "rain"))
      as (_ & _ & _ & _ & _ & _ & Hsave' & _).
    apply Hsave'; [apply finished_persistable | simpl; lia].
  - destruct (Hh (with_match 9%N finished) 9%N) as [Hc _].
    + apply lookup_insert_eq.
    + apply finished_persistable.
    + simpl. lia.
    + etransitivity; [exact Hc |].
      unfold with_match, store_match. simpl. rewrite insert_insert_eq.
      reflexivity.
Defined.

(** ** Starting a match *)

(** C3. The handler starts a match only from scheduled. When the status
    is anything else it answers 400, "Match cannot be started from current
    status" (the invalid-state error), and the database is as it was. When
    it answers with success the status was scheduled, and the stored match
    has status ongoing and the time of the call as its start time; this is
    what happens for every scheduled match whose started form [save]
    accepts. After a successful start, another start is refused. *)
Theorem startMatch_only_scheduled (now : Date) (db : DB) (id : ObjectId)
    (m : Match) :
  matches db !! id = Some m ->
  let r := MatchController.startMatch now db id in
  let this := (start now m).1 in
  let refused := fail 400 "Match cannot be started from current status" in
  let started_ok :=
    (store_match id this db, ok 200 "Match started successfully" (Some this)) in
  status this = ongoing /\ startTime this = Some now /\
  (status m <> scheduled -> r = (db, refused)) /\
  (res_success r.2 = true -> status m = scheduled /\ r = started_ok) /\
  (status m = scheduled -> persistable this -> r = started_ok) /\
  (res_success r.2 = true ->
   forall now', MatchController.startMatch now' r.1 id = (r.1, refused)).
Proof.
  intros Hm r this refused started_ok.
  assert (Hrefuse : status m <> scheduled -> r = (db, refused)).
  { intros Hs. subst r. unfold MatchController.startMatch. rewrite Hm.
    rewrite bool_decide_eq_true_2 by assumption. reflexivity. }
  assert (Hcases : status m = scheduled ->
            (persistable this /\ r = started_ok) \/
            (r = (db, fail 500 "Server error while starting match"))).
  { intros Hs. subst r. unfold MatchController.startMatch. rewrite Hm.
    rewrite bool_decide_eq_false_2 by (intros H; apply H; assumption).
    unfold MatchController.settle.
    change (start now m) with (this, save this).
    destruct (save_cases this) as [[-> Hp] | (e & -> & _)];
      [left; split; [assumption | reflexivity] | right; reflexivity]. }
  assert (Hsucc : res_success r.2 = true -> status m = scheduled /\ r = started_ok).
  { intros Hok. destruct (decide (status m = scheduled)) as [Hs | Hs].
    - split; [assumption |].
      destruct (Hcases Hs) as [[_ ->] | Hr]; [reflexivity |].
      rewrite Hr in Hok. discriminate.
    - rewrite (Hrefuse Hs) in Hok. discriminate. }
  split; [reflexivity |]. split; [reflexivity |].
  split; [exact Hrefuse |]. split; [exact Hsucc |]. split.
  - intros Hs Hp. destruct (Hcases Hs) as [[_ ->] | Hr]; [reflexivity |].
    exfalso. subst r. unfold MatchController.startMatch in Hr. rewrite Hm in Hr.
    rewrite bool_decide_eq_false_2 in Hr by (intros H; apply H; assumption).
    unfold MatchController.settle in Hr.
    change (start now m) with (this, save this) in Hr.
    apply save_persistable in Hp. rewrite Hp in Hr. discriminate.
  - intros Hok now'. destruct (Hsucc Hok) as [_ ->]. simpl.
    unfold MatchController.startMatch, store_match. simpl.
    rewrite lookup_insert_eq. reflexivity.
Qed.

(** A fresh match is started at time 100; the second start, at time 150, is
    refused and changes nothing. *)
Lemma startMatch_only_scheduled_witness :
  let r := MatchController.startMatch 100 (with_match 9%N fresh) 9%N in
  res_success r.2 = true /\
  (status <$> matches r.1 !! 9%N) = Some ongoing /\
  MatchController.startMatch 150 r.1 9%N =
    (r.1, fail 400 "Match cannot be started from current status").
Proof.
  intros r.
  destruct (startMatch_only_scheduled 100 (with_match 9%N fresh) 9%N fresh)
    as (_ & _ & _ & _ & Hgo & Htwice).
  { apply lookup_insert_eq. }
  assert (Hr : r = (store_match 9%N (start 100 fresh).1 (with_match 9%N fresh),
                    ok 200 "Match started successfully" (Some (start 100 fresh).1))).
  { apply Hgo; [reflexivity |].
    split; [valid_now |].
    split; [discriminate |]. simpl. intros e s [=]. }
  assert (Hok : res_success r.2 = true) by (rewrite Hr; reflexivity).
  split; [exact Hok |]. split.
  - rewrite Hr. unfold store_match. simpl. rewrite lookup_insert_eq. reflexivity.
  - apply Htwice. exact Hok.
Defined.

(** ** What the handlers write *)

Lemma update_ledger_matches (m : Match) (db : DB) :
  matches (MatchController.update_ledger m db) = matches db.
Proof.
  unfold MatchController.update_ledger.
  destruct (competitors db !! teamAId m), (competitors db !! teamBId m);
    try reflexivity.
  repeat case_bool_decide; reflexivity.
Qed.

Lemma settle_writes (db : DB) (id : ObjectId) (r : Match * Promise Match)
    (done failed : string) :
  r.2 = save r.1 ->
  writes_saved db (MatchController.settle db id r done failed).1.
Proof.
  destruct r as [this p]. simpl. intros ->. unfold MatchController.settle.
  destruct (save_cases this) as [[-> Hp] | (e & -> & _)].
  - right. exists id, this. split; [assumption | reflexivity].
  - left. reflexivity.
Qed.

Lemma handle_writes (now : Date) (db : DB) (rq : Request) :
  writes_saved db (handle now db rq).1.
Proof.
  destruct rq as [newId body | id | id body | id newDate | id body
                 | id reason | id reason]; simpl.
  - unfold MatchController.createMatch.
    case_bool_decide; [| left; reflexivity].
    destruct (findCompetitorIn db (b_teamAId body) _);
      [| left; reflexivity].
    destruct (findCompetitorIn db (b_teamBId body) _);
      [| left; reflexivity].
    destruct (save_cases (new_Match body))
      as [[-> Hp] | (e & -> & _)].
    + right. exists newId, (new_Match body).
      split; [assumption | reflexivity].
    + destruct e; left; reflexivity.
  - unfold MatchController.startMatch.
    destruct (matches db !! id) as [m|]; [| left; reflexivity].
    case_bool_decide; [left; reflexivity |].
    apply settle_writes. reflexivity.
  - unfold MatchController.setMatchResult.
    destruct (b_scoreA body) as [a|]; [| left; reflexivity].
    destruct (b_scoreB body) as [b|]; [| left; reflexivity].
    destruct (matches db !! id) as [m|]; [| left; reflexivity].
    change (setResult now m (default "" (b_result body)) a b)
      with ((setResult now m (default "" (b_result body)) a b).1,
            save (setResult now m (default "" (b_result body)) a b).1).
    destruct (save_cases (setResult now m (default "" (b_result body)) a b).1)
      as [[-> Hp] | (e & -> & _)]; [| left; reflexivity].
    right. eexists id, _. split; [exact Hp |].
    simpl. rewrite update_ledger_matches. reflexivity.
  - unfold MatchController.rescheduleMatch.
    destruct (MatchController.falsy newDate); [left; reflexivity |].
    destruct (matches db !! id) as [m|]; [| left; reflexivity].
    apply settle_writes. reflexivity.
  - unfold MatchController.addGame.
    destruct (matches db !! id) as [m|]; [| left; reflexivity].
    change (addGame now m (MatchController.gameData_of m body))
      with ((addGame now m (MatchController.gameData_of m body)).1,
            save (addGame now m (MatchController.gameData_of m body)).1).
    destruct (save_cases (addGame now m (MatchController.gameData_of m body)).1)
      as [[-> Hp] | (e & -> & _)]; [| left; reflexivity].
    right. eexists id, _. split; [exact Hp | reflexivity].
  - unfold MatchController.cancelMatch.
    destruct (matches db !! id) as [m|]; [| left; reflexivity].
    apply settle_writes. reflexivity.
  - unfold MatchController.postponeMatch.
    destruct (matches db !! id) as [m|]; [| left; reflexivity].
    apply settle_writes. reflexivity.
Qed.

(** A property of documents that [save] guarantees holds of every stored
    match after every request. *)
Lemma handle_invariant (P : Match -> Prop) (now : Date) (db : DB) (rq : Request) :
  (forall m, persistable m -> P m) ->
  (forall id m, matches db !! id = Some m -> P m) ->
  forall id m, matches (handle now db rq).1 !! id = Some m -> P m.
Proof.
  intros HP Hdb id m.
  destruct (handle_writes now db rq) as [-> | (id' & this & Hp & ->)].
  - apply Hdb.
  - rewrite lookup_insert. case_decide.
    + intros [= <-]. apply HP, Hp.
    + apply Hdb.
Qed.

Lemma run_invariant (P : Match -> Prop) (rqs : list (Date * Request)) (db : DB) :
  (forall m, persistable m -> P m) ->
  (forall id m, matches db !! id = Some m -> P m) ->
  forall id m, matches (run db rqs) !! id = Some m -> P m.
Proof.
  intros HP. revert db.
  induction rqs as [| [now rq] rqs IH]; intros db Hdb; simpl; [exact Hdb |].
  apply IH. apply handle_invariant; assumption.
Qed.

(** ** End time after start time *)

(** C8. A match that [save] accepts has its end time strictly after its
    start time when it has both, and [save] rejects a document whose end
    time is at or before its start time. Hence every request leaves the
    stored matches so ordered if they were, and so does every run of
    requests; from a database without matches, every stored match is so
    ordered. *)
Theorem end_after_start_preserved :
  (forall m m', save m = Resolved m' -> ordered m') /\
  (forall m e s, endTime m = Some e -> startTime m = Some s -> e <= s ->
     exists err, save m = Rejected err) /\
  (forall now db rq, db_ordered db -> db_ordered (handle now db rq).1) /\
  (forall db rqs, db_ordered db -> db_ordered (run db rqs)) /\
  (forall db rqs, matches db = ∅ -> db_ordered (run db rqs)).
Proof.
  assert (HP : forall m, persistable m -> ordered m).
  { intros m (_ & _ & H). exact H. }
  split; [| split; [| split; [| split]]].
  - intros m m' H. apply save_Resolved in H as (-> & Hv & Hpre).
    apply pre_save_None in Hpre as [_ H]. exact H.
  - intros m e s He Hs Hle.
    destruct (save_cases m) as [[_ (_ & _ & Hord)] | (err & Herr & _)].
    + specialize (Hord e s He Hs). lia.
    + exists err. exact Herr.
  - intros now db rq Hdb. unfold db_ordered.
    apply handle_invariant; assumption.
  - intros db rqs Hdb. unfold db_ordered. apply run_invariant; assumption.
  - intros db rqs Hdb. unfold db_ordered. apply run_invariant; [assumption |].
    intros id m. rewrite Hdb, lookup_empty. discriminate.
Qed.

(** A match is scheduled, started at time 100 and its result recorded at
    time 200: the stored match ends after it started. Recording the result
    at the very time of the start is rejected. *)
Lemma end_after_start_preserved_witness :
  let rqs := [(10, Schedule 9%N two_teams); (100, Start 9%N);
              (200, RecordResult 9%N (mkResultBody None (Some 2) (Some 1)))] in
  db_ordered (run db0 rqs) /\
  (endTime <$> matches (run db0 rqs) !! 9%N) = Some (Some 200) /\
  (startTime <$> matches (run db0 rqs) !! 9%N) = Some (Some 100) /\
  exists err, (setResult 100 (started 3) "" 2 1).2 = Rejected err.
Proof.
  intros rqs.
  destruct end_after_start_preserved as (_ & Hrej & _ & _ & Hrun).
  split; [apply Hrun; reflexivity |].
  split; [vm_compute; reflexivity |].
  split; [vm_compute; reflexivity |].
  apply (Hrej (setResult 100 (started 3) "" 2 1).1 100 100);
    [reflexivity | reflexivity | lia].
Defined.

(** ** Scheduling a match *)

Lemma new_Match_persistable (body : CreateBody) :
  persistable (new_Match body) <->
  valid_fields (new_Match body) /\ b_teamAId body <> b_teamBId body.
Proof.
  unfold persistable. simpl. split.
  - intros (Hv & Hab & _). split; assumption.
  - intros (Hv & Hab). split; [assumption | split; [assumption |]].
    intros e s [=].
Qed.

(** The stored matches have two distinct teams: [save] demands it, and
    every request writes only what [save] accepted. *)
Lemma saved_teams_distinct (m m' : Match) :
  save m = Resolved m' -> teamAId m' <> teamBId m'.
Proof.
  intros H. apply save_Resolved in H as (-> & _ & Hpre).
  apply pre_save_None in Hpre as [H _]. exact H.
Qed.

Lemma handle_teams_distinct (now : Date) (db : DB) (rq : Request) :
  db_distinct db -> db_distinct (handle now db rq).1.
Proof.
  intros Hdb. unfold db_distinct.
  apply (handle_invariant (fun m => teamAId m <> teamBId m)); [| exact Hdb].
  intros m (_ & H & _). exact H.
Qed.

Lemma run_teams_distinct (db : DB) (rqs : list (Date * Request)) :
  db_distinct db -> db_distinct (run db rqs).
Proof.
  intros Hdb. unfold db_distinct.
  apply (run_invariant (fun m => teamAId m <> teamBId m)); [| exact Hdb].
  intros m (_ & H & _). exact H.
Qed.

(** C4. Scheduling a match of a registered competitor against itself
    creates no match, but the failure is not a validation error: the hook
    rejects the save with a plain [Error], which is not the
    [ValidationError] the handler answers with 400 "Validation failed", and
    the answer is 500, "Server error while creating match". *)
Theorem createMatch_same_team (newId : ObjectId) (db : DB) (body : CreateBody) :
  b_tournamentId body ∈ tournaments db ->
  is_Some (findCompetitorIn db (b_teamAId body) (b_tournamentId body)) ->
  b_teamBId body = b_teamAId body ->
  valid_fields (new_Match body) ->
  save (new_Match body) =
    Rejected (Error "Team A and Team B cannot be the same") /\
  MatchController.createMatch newId db body =
    (db, fail 500 "Server error while creating match").
Proof.
  intros Ht [c Hc] Hsame Hv.
  assert (Hsave : save (new_Match body) =
                  Rejected (Error "Team A and Team B cannot be the same")).
  { unfold save. apply validate_nil in Hv. rewrite Hv.
    unfold pre_save. simpl. rewrite Hsame.
    rewrite bool_decide_eq_true_2 by reflexivity. reflexivity. }
  split; [exact Hsave |].
  unfold MatchController.createMatch.
  rewrite bool_decide_eq_true_2 by assumption.
  rewrite Hsame, Hc, Hsave. reflexivity.
Qed.

Lemma createMatch_same_team_witness :
  MatchController.createMatch 9%N db0 same_team =
    (db0, fail 500 "Server error while creating match") /\
  res_status (MatchController.createMatch 9%N db0 same_team).2 <> 400.
Proof.
  destruct (createMatch_same_team 9%N db0 same_team) as [_ H].
  - vm_compute. set_solver.
  - exists (mkCompetitor 7%N 0 0 0). reflexivity.
  - reflexivity.
  - valid_now.
  - split; [exact H |]. rewrite H. discriminate.
Defined.

(** C7 as stated does not hold: the answer to a request for a tournament
    that does not exist is 404 and not the 400 of a validation failure, and
    the answer when a competitor is not found in the tournament is 400 and
    not the 404 of a missing resource. *)
Lemma createMatch_not_found_counterexample :
  ((99%N ∉ tournaments db0) /\
   MatchController.createMatch 9%N db0 unknown_tournament =
     (db0, fail 404 "Tournament not found") /\
   res_status (MatchController.createMatch 9%N db0 unknown_tournament).2 <> 400) /\
  (findCompetitorIn db0 3%N 7%N = None /\
   MatchController.createMatch 9%N db0 outsider =
     (db0, fail 400 "One or both competitors not found in this tournament") /\
   res_status (MatchController.createMatch 9%N db0 outsider).2 <> 404).
Proof.
  assert (H1 : MatchController.createMatch 9%N db0 unknown_tournament =
               (db0, fail 404 "Tournament not found")).
  { unfold MatchController.createMatch.
    rewrite bool_decide_eq_false_2; [reflexivity |]. simpl. set_solver. }
  assert (H2 : MatchController.createMatch 9%N db0 outsider =
     (db0, fail 400 "One or both competitors not found in this tournament")).
  { unfold MatchController.createMatch.
    rewrite bool_decide_eq_true_2; [reflexivity |]. simpl. set_solver. }
  split; split.
  - simpl. set_solver.
  - split; [exact H1 |]. rewrite H1. discriminate.
  - reflexivity.
  - split; [exact H2 |]. rewrite H2. discriminate.
Qed.

(** C7, as the handler has it. A request for a tournament that does not
    exist is answered 404, "Tournament not found". With the tournament
    there, a competitor not found in it is answered 400, and so is a new
    match that validation rejects (a date that is missing or not a valid
    date, a round or best of below 1, a bracket that is not one of the
    four): nothing is stored and the answer is 400, "Validation failed",
    with at least one error. A match of a team against itself is not
    created. The answer is a success exactly when the tournament exists,
    both competitors are found in it and the new match has valid fields and
    two distinct teams; the match is then stored under its new id and
    returned with 201. *)
Theorem createMatch_outcomes (newId : ObjectId) (db : DB) (body : CreateBody) :
  let r := MatchController.createMatch newId db body in
  let m := new_Match body in
  let foundA := findCompetitorIn db (b_teamAId body) (b_tournamentId body) in
  let foundB := findCompetitorIn db (b_teamBId body) (b_tournamentId body) in
  (b_tournamentId body ∉ tournaments db ->
   r = (db, fail 404 "Tournament not found")) /\
  (b_tournamentId body ∈ tournaments db -> foundA = None \/ foundB = None ->
   r = (db, fail 400 "One or both competitors not found in this tournament")) /\
  (b_tournamentId body ∈ tournaments db -> is_Some foundA -> is_Some foundB ->
   ~ valid_fields m ->
   r.1 = db /\ res_status r.2 = 400 /\ res_success r.2 = false /\
   res_message r.2 = "Validation failed" /\ res_errors r.2 <> [] /\
   res_data r.2 = None) /\
  (b_teamAId body = b_teamBId body -> r.1 = db /\ res_success r.2 = false) /\
  (res_success r.2 = true <->
   b_tournamentId body ∈ tournaments db /\ is_Some foundA /\ is_Some foundB /\
   valid_fields m /\ b_teamAId body <> b_teamBId body) /\
  (res_success r.2 = true ->
   r = (store_match newId m db, ok 201 "Match created successfully" (Some m))).
Proof.
  intros r m foundA foundB.
  assert (Hno_t : b_tournamentId body ∉ tournaments db ->
                  r = (db, fail 404 "Tournament not found")).
  { intros Ht. subst r. unfold MatchController.createMatch.
    rewrite bool_decide_eq_false_2 by assumption. reflexivity. }
  assert (Hno_c : b_tournamentId body ∈ tournaments db ->
            foundA = None \/ foundB = None ->
            r = (db, fail 400
                   "One or both competitors not found in this tournament")).
  { intros Ht Hc. subst r. unfold MatchController.createMatch.
    rewrite bool_decide_eq_true_2 by assumption. fold foundA foundB.
    destruct Hc as [-> | ->]; [reflexivity |].
    destruct foundA; reflexivity. }
  assert (Hfound : b_tournamentId body ∈ tournaments db ->
            is_Some foundA -> is_Some foundB ->
            r = match save m with
                | Resolved m' =>
                    (store_match newId m' db,
                     ok 201 "Match created successfully" (Some m'))
                | Rejected (ValidationError errors) =>
                    (db, mkResponse 400 false "Validation failed" errors None)
                | Rejected (Error _) =>
                    (db, fail 500 "Server error while creating match")
                end).
  { intros Ht [a Ha] [b Hb]. subst r. unfold MatchController.createMatch.
    rewrite bool_decide_eq_true_2 by assumption. fold foundA foundB.
    rewrite Ha, Hb. reflexivity. }
  assert (Hsucc : res_success r.2 = true ->
            b_tournamentId body ∈ tournaments db /\ is_Some foundA /\
            is_Some foundB /\ persistable m /\
            r = (store_match newId m db,
                 ok 201 "Match created successfully" (Some m))).
  { intros Hok.
    destruct (decide (b_tournamentId body ∈ tournaments db)) as [Ht | Ht];
      [| rewrite (Hno_t Ht) in Hok; discriminate].
    destruct foundA as [a|] eqn:HA;
      [| rewrite (Hno_c Ht (or_introl eq_refl)) in Hok; discriminate].
    destruct foundB as [b|] eqn:HB;
      [| rewrite (Hno_c Ht (or_intror eq_refl)) in Hok; discriminate].
    assert (Hr := Hfound Ht (mk_is_Some _ _ eq_refl) (mk_is_Some _ _ eq_refl)).
    destruct (save_cases m) as [[Hs Hp] | (e & Hs & _)]; rewrite Hs in Hr.
    - split; [exact Ht |]. split; [eexists; reflexivity |].
      split; [eexists; reflexivity |]. split; [exact Hp | exact Hr].
    - rewrite Hr in Hok. destruct e; discriminate. }
  split; [exact Hno_t |]. split; [exact Hno_c |]. split; [| split; [| split]].
  - intros Ht HA HB Hv. rewrite (Hfound Ht HA HB). unfold save.
    destruct (validate m) as [|err errs] eqn:Hval.
    + exfalso. apply Hv, validate_nil, Hval.
    + cbn. repeat split. discriminate.
  - intros Hsame.
    destruct (res_success r.2) eqn:Hok.
    + destruct (Hsucc eq_refl) as (_ & _ & _ & (_ & Hab & _) & _).
      exfalso. apply Hab. exact Hsame.
    + split; [| reflexivity].
      destruct (decide (b_tournamentId body ∈ tournaments db)) as [Ht | Ht];
        [| rewrite (Hno_t Ht); reflexivity].
      destruct foundA as [a|] eqn:HA;
        [| rewrite (Hno_c Ht (or_introl eq_refl)); reflexivity].
      destruct foundB as [b|] eqn:HB;
        [| rewrite (Hno_c Ht (or_intror eq_refl)); reflexivity].
      assert (Hr := Hfound Ht (mk_is_Some _ _ eq_refl) (mk_is_Some _ _ eq_refl)).
      destruct (save m) as [m'|[errs|msg]]; rewrite Hr in *;
        [discriminate | reflexivity | reflexivity].
  - split.
    + intros Hok. destruct (Hsucc Hok) as (Ht & HA & HB & Hp & _).
      apply new_Match_persistable in Hp as [Hv Hab]. auto.
    + intros (Ht & HA & HB & Hv & Hab). rewrite (Hfound Ht HA HB).
      assert (Hp : persistable m) by (apply new_Match_persistable; auto).
      apply save_persistable in Hp. rewrite Hp. reflexivity.
  - intros Hok. apply Hsucc. exact Hok.
Qed.

(** Teams 1 and 2 of tournament 7 are scheduled; a request for tournament
    99, which does not exist, is answered 404; a request without a date is
    answered 400, "Validation failed". *)
Lemma createMatch_outcomes_witness :
  MatchController.createMatch 9%N db0 two_teams =
    (with_match 9%N (new_Match two_teams),
     ok 201 "Match created successfully" (Some (new_Match two_teams))) /\
  MatchController.createMatch 9%N db0 unknown_tournament =
    (db0, fail 404 "Tournament not found") /\
  ((MatchController.createMatch 9%N db0 no_date).1 = db0 /\
   res_status (MatchController.createMatch 9%N db0 no_date).2 = 400 /\
   res_message (MatchController.createMatch 9%N db0 no_date).2
     = "Validation failed").
Proof.
  split; [| split].
  - destruct (createMatch_outcomes 9%N db0 two_teams)
      as (_ & _ & _ & _ & [_ Hiff] & Hok).
    apply Hok, Hiff. split; [simpl; set_solver |].
    split; [eexists; reflexivity |]. split; [eexists; reflexivity |].
    split; [| discriminate].
    valid_now.
  - destruct (createMatch_outcomes 9%N db0 unknown_tournament) as (Hnf & _).
    apply Hnf. simpl. set_solver.
  - destruct (createMatch_outcomes 9%N db0 no_date) as (_ & _ & Hval & _).
    destruct Hval as (Hdb & Hst & _ & Hmsg & _).
    + simpl. set_solver.
    + eexists; reflexivity.
    + eexists; reflexivity.
    + intros [Hdate _ _ _ _ _ _ _]. vm_compute in Hdate. discriminate.
    + auto.
Defined.

(** * Further properties of the handlers *)

(** ** Requests that fail *)

(** X1. A request about a match the database does not hold is answered
    404, "Match not found", when it carries what its handler demands: both
    scores for a result, and for a rescheduling a new date that is present
    and not 0. A request that lacks it is answered 400, since the handler
    tests the body before it looks the match up. Either way nothing is
    written. *)
Theorem unknown_match_not_found (now : Date) (db : DB) (rq : Request)
    (id : ObjectId) :
  target rq = Some id -> matches db !! id = None ->
  (complete rq = true ->
   handle now db rq = (db, fail 404 "Match not found")) /\
  (complete rq = false ->
   (handle now db rq).1 = db /\ res_status (handle now db rq).2 = 400 /\
   res_success (handle now db rq).2 = false).
Proof.
  intros Ht Hm.
  destruct rq as [newId body | id' | id' body | id' newDate | id' body
                 | id' reason | id' reason]; simpl in Ht;
    try discriminate; injection Ht as ->; simpl;
    (split; [intros Hc | intros Hc; try discriminate]).
  - unfold MatchController.startMatch. rewrite Hm. reflexivity.
  - unfold MatchController.setMatchResult.
    destruct (b_scoreA body); [| discriminate].
    destruct (b_scoreB body); [| discriminate].
    rewrite Hm. reflexivity.
  - unfold MatchController.setMatchResult.
    destruct (b_scoreA body); [| repeat split].
    destruct (b_scoreB body); [discriminate | repeat split].
  - unfold MatchController.rescheduleMatch.
    destruct (MatchController.falsy newDate); [discriminate |]. rewrite Hm.
    reflexivity.
  - unfold MatchController.rescheduleMatch.
    destruct (MatchController.falsy newDate); [repeat split | discriminate].
  - unfold MatchController.addGame. rewrite Hm. reflexivity.
  - unfold MatchController.cancelMatch. rewrite Hm. reflexivity.
  - unfold MatchController.postponeMatch. rewrite Hm. reflexivity.
Qed.

(** No match 9 in the database: cancelling it is answered 404, and
    rescheduling it to the date 0 is answered 400. *)
Lemma unknown_match_not_found_witness :
  handle 100 db0 (Cancel 9%N (Some "rain"))
    = (db0, fail 404 "Match not found") /\
  res_status (handle 100 db0 (Reschedule 9%N (Some 0))).2 = 400.
Proof.
  split.
  - apply (unknown_match_not_found 100 db0 (Cancel 9%N (Some "rain")) 9%N);
      reflexivity.
  - apply (unknown_match_not_found 100 db0 (Reschedule 9%N (Some 0)) 9%N);
      reflexivity.
Defined.

Lemma settle_failure (db : DB) (id : ObjectId) (r : Match * Promise Match)
    (done failed : string) :
  res_success (MatchController.settle db id r done failed).2 = false ->
  (MatchController.settle db id r done failed).1 = db.
Proof.
  unfold MatchController.settle. destruct r as [this [a|e]]; simpl;
    [discriminate | reflexivity].
Qed.

(** X2. A request that is not answered with success writes nothing:
    neither a match nor a competitor. *)
Theorem failure_writes_nothing (now : Date) (db : DB) (rq : Request) :
  res_success (handle now db rq).2 = false -> (handle now db rq).1 = db.
Proof.
  destruct rq as [newId body | id | id body | id newDate | id body
                 | id reason | id reason]; simpl.
  - unfold MatchController.createMatch.
    case_bool_decide; [| reflexivity].
    destruct (findCompetitorIn db (b_teamAId body) _); [| reflexivity].
    destruct (findCompetitorIn db (b_teamBId body) _); [| reflexivity].
    destruct (save (new_Match body)) as [m|[errs|msg]]; simpl;
      [discriminate | reflexivity | reflexivity].
  - unfold MatchController.startMatch.
    destruct (matches db !! id) as [m|]; [| reflexivity].
    case_bool_decide; [reflexivity |]. apply settle_failure.
  - unfold MatchController.setMatchResult.
    destruct (b_scoreA body) as [a|]; [| reflexivity].
    destruct (b_scoreB body) as [b|]; [| reflexivity].
    destruct (matches db !! id) as [m|]; [| reflexivity].
    destruct (setResult now m (default "" (b_result body)) a b) as [this [x|e]];
      simpl; [discriminate | reflexivity].
  - unfold MatchController.rescheduleMatch.
    destruct (MatchController.falsy newDate); [reflexivity |].
    destruct (matches db !! id) as [m|]; [| reflexivity]. apply settle_failure.
  - unfold MatchController.addGame.
    destruct (matches db !! id) as [m|]; [| reflexivity].
    destruct (addGame now m (MatchController.gameData_of m body)) as [this [x|e]];
      simpl; [discriminate | reflexivity].
  - unfold MatchController.cancelMatch.
    destruct (matches db !! id) as [m|]; [| reflexivity]. apply settle_failure.
  - unfold MatchController.postponeMatch.
    destruct (matches db !! id) as [m|]; [| reflexivity]. apply settle_failure.
Qed.

(** A result recorded at the very time of the start is rejected, and the
    database stays as it was. *)
Lemma failure_writes_nothing_witness :
  let db := with_match 9%N (started 3) in
  let rq := RecordResult 9%N (mkResultBody None (Some 2) (Some 1)) in
  res_status (handle 100 db rq).2 = 500 /\ (handle 100 db rq).1 = db.
Proof.
  intros db rq. split; [vm_compute; reflexivity |].
  apply failure_writes_nothing. vm_compute. reflexivity.
Defined.

(** ** What a request leaves alone *)

Lemma evolves_refl (m : Match) : evolves m m.
Proof. split; [repeat split | reflexivity]. Qed.

Lemma setResult_evolves (now : Date) (m : Match) (res : string) (a b : Z) :
  evolves m (setResult now m res a b).1.
Proof.
  unfold setResult. simpl.
  destruct (a >? b); [| destruct (b >? a)]; simpl;
    (split; [repeat split | reflexivity]).
Qed.

Lemma addGame_evolves (now : Date) (m : Match) (g : Game) :
  evolves m (addGame now m g).1.
Proof.
  rewrite addGame_this. simpl.
  destruct (_ <=? _); [| destruct (_ <=? _)]; simpl;
    (split; [repeat split | exists [g]; reflexivity]).
Qed.

(** The matches after a request: as before, or with one accepted document
    written under the id of the request, which is the new match of a
    scheduling or the evolution of the match that was there. *)
Lemma handle_written (now : Date) (db : DB) (rq : Request) :
  matches (handle now db rq).1 = matches db \/
  exists this,
    matches (handle now db rq).1 = <[written rq := this]> (matches db) /\
    persistable this /\
    match target rq with
    | None => True
    | Some id => exists m, matches db !! id = Some m /\ evolves m this
    end.
Proof.
  assert (Hsettle : forall id m (r : Match * Promise Match) done failed,
            r.2 = save r.1 -> evolves m r.1 ->
            matches (MatchController.settle db id r done failed).1 = matches db \/
            exists this,
              matches (MatchController.settle db id r done failed).1 =
                <[id := this]> (matches db) /\
              persistable this /\
              exists m0, Some m = Some m0 /\ evolves m0 this).
  { intros id m [this p] done failed Hp Hev. simpl in Hp, Hev. subst p.
    unfold MatchController.settle.
    destruct (save_cases this) as [[-> Hpers] | (e & -> & _)];
      [right; exists this; eauto | left; reflexivity]. }
  destruct rq as [newId body | id | id body | id newDate | id body
                 | id reason | id reason]; simpl.
  - unfold MatchController.createMatch.
    case_bool_decide; [| left; reflexivity].
    destruct (findCompetitorIn db (b_teamAId body) _); [| left; reflexivity].
    destruct (findCompetitorIn db (b_teamBId body) _); [| left; reflexivity].
    destruct (save_cases (new_Match body)) as [[-> Hp] | (e & -> & _)].
    + right. exists (new_Match body). auto.
    + destruct e; left; reflexivity.
  - unfold MatchController.startMatch.
    destruct (matches db !! id) as [m|] eqn:Hm; [| left; reflexivity].
    case_bool_decide; [left; reflexivity |].
    apply (Hsettle id m); [reflexivity |].
    split; [repeat split | reflexivity].
  - unfold MatchController.setMatchResult.
    destruct (b_scoreA body) as [a|]; [| left; reflexivity].
    destruct (b_scoreB body) as [b|]; [| left; reflexivity].
    destruct (matches db !! id) as [m|] eqn:Hm; [| left; reflexivity].
    pose proof (setResult_evolves now m (default "" (b_result body)) a b) as Hev.
    change (setResult now m (default "" (b_result body)) a b)
      with ((setResult now m (default "" (b_result body)) a b).1,
            save (setResult now m (default "" (b_result body)) a b).1).
    destruct (save_cases (setResult now m (default "" (b_result body)) a b).1)
      as [[-> Hp] | (e & -> & _)]; [| left; reflexivity].
    right. eexists. split; [| split; [exact Hp | eauto]].
    simpl. rewrite update_ledger_matches. reflexivity.
  - unfold MatchController.rescheduleMatch.
    destruct (MatchController.falsy newDate); [left; reflexivity |].
    destruct (matches db !! id) as [m|] eqn:Hm; [| left; reflexivity].
    apply (Hsettle id m); [reflexivity |].
    split; [repeat split | reflexivity].
  - unfold MatchController.addGame.
    destruct (matches db !! id) as [m|] eqn:Hm; [| left; reflexivity].
    pose proof (addGame_evolves now m (MatchController.gameData_of m body)) as Hev.
    change (addGame now m (MatchController.gameData_of m body))
      with ((addGame now m (MatchController.gameData_of m body)).1,
            save (addGame now m (MatchController.gameData_of m body)).1).
    destruct (save_cases (addGame now m (MatchController.gameData_of m body)).1)
      as [[-> Hp] | (e & -> & _)]; [| left; reflexivity].
    right. eexists. split; [reflexivity | split; [exact Hp | eauto]].
  - unfold MatchController.cancelMatch.
    destruct (matches db !! id) as [m|] eqn:Hm; [| left; reflexivity].
    apply (Hsettle id m); [reflexivity |].
    split; [repeat split | reflexivity].
  - unfold MatchController.postponeMatch.
    destruct (matches db !! id) as [m|] eqn:Hm; [| left; reflexivity].
    apply (Hsettle id m); [reflexivity |].
    split; [repeat split | reflexivity].
Qed.

(** X3. No operation of the engine removes a match, changes its
    tournament, its teams, its format, round, bracket or referee, or
    rewrites its games: whatever the request, a stored match is still stored
    afterwards with the same identity and with its games as a prefix of the
    games it has then, and it is untouched when the request is about another
    match. (A scheduling is assumed to come with an unused id.) *)
Theorem engine_keeps_identity_and_games (now : Date) (db : DB) (rq : Request)
    (id : ObjectId) (m : Match) :
  matches db !! id = Some m ->
  (target rq = None -> written rq <> id) ->
  exists m', matches (handle now db rq).1 !! id = Some m' /\
    same_identity m m' /\ games m `prefix_of` games m' /\
    (written rq <> id -> m' = m).
Proof.
  intros Hm Hfresh.
  destruct (handle_written now db rq) as [-> | (this & -> & _ & Ht)].
  - exists m. split; [assumption |]. destruct (evolves_refl m). auto.
  - destruct (decide (written rq = id)) as [Heq | Hne].
    + rewrite Heq, lookup_insert_eq. exists this. split; [reflexivity |].
      destruct (target rq) as [id'|] eqn:Htarget.
      * assert (id' = id) as ->.
        { destruct rq; simpl in *; congruence. }
        destruct Ht as (m0 & Hm0 & Hev & Hpre).
        rewrite Hm in Hm0. injection Hm0 as <-.
        split; [assumption | split; [assumption | contradiction]].
      * exfalso. apply Hfresh; [reflexivity | assumption].
    + rewrite lookup_insert_ne by assumption. exists m.
      split; [assumption |]. destruct (evolves_refl m). auto.
Qed.

(** A game added to a started match: it keeps its teams and its format and
    has one game more. *)
Lemma engine_keeps_identity_and_games_witness :
  let rq := AddGame 9%N (mkGameBody None (Some 1) (Some 0) (Some 1%N) None None) in
  exists m', matches (handle 200 (with_match 9%N (started 3)) rq).1 !! 9%N = Some m' /\
    teamAId m' = 1%N /\ teamBId m' = 2%N /\ bestOf m' = 3 /\
    length (games m') = 1%nat.
Proof.
  intros rq.
  destruct (engine_keeps_identity_and_games 200 (with_match 9%N (started 3))
              rq 9%N (started 3)) as (m' & Hm' & Hid & _ & _).
  - apply lookup_insert_eq.
  - discriminate.
  - exists m'. split; [exact Hm' |].
    destruct Hid as (_ & HA & HB & Hb & _).
    split; [exact HA |]. split; [exact HB |]. split; [exact Hb |].
    vm_compute in Hm'. injection Hm' as <-. reflexivity.
Defined.

(** ** The statistics of the competitors *)

(** A result that was recorded: the document [setResult] left is stored and
    the statistics are updated from it. *)
Lemma setMatchResult_success (now : Date) (db : DB) (id : ObjectId)
    (body : ResultBody) (m : Match) (a b : Z) :
  matches db !! id = Some m -> b_scoreA body = Some a -> b_scoreB body = Some b ->
  res_success (MatchController.setMatchResult now db id body).2 = true ->
  let this := (setResult now m (default "" (b_result body)) a b).1 in
  persistable this /\
  (MatchController.setMatchResult now db id body).1 =
    MatchController.update_ledger this (store_match id this db).
Proof.
  intros Hm Ha Hb. unfold MatchController.setMatchResult.
  rewrite Ha, Hb, Hm.
  change (setResult now m (default "" (b_result body)) a b)
    with ((setResult now m (default "" (b_result body)) a b).1,
          save (setResult now m (default "" (b_result body)) a b).1).
  destruct (save_cases (setResult now m (default "" (b_result body)) a b).1)
    as [[-> Hp] | (e & -> & _)]; simpl; [| discriminate].
  intros _. split; [exact Hp | reflexivity].
Qed.

Lemma update_ledger_competitors (m : Match) (db : DB) (ca cb : Competitor) :
  teamAId m <> teamBId m ->
  competitors db !! teamAId m = Some ca ->
  competitors db !! teamBId m = Some cb ->
  competitors (MatchController.update_ledger m db) =
    if bool_decide (winnerId m = Some (teamAId m)) then
      <[teamBId m := updateStats cb false]>
        (<[teamAId m := updateStats ca true]> (competitors db))
    else if bool_decide (winnerId m = Some (teamBId m)) then
      <[teamAId m := updateStats ca false]>
        (<[teamBId m := updateStats cb true]> (competitors db))
    else competitors db.
Proof.
  intros Hab HA HB. unfold MatchController.update_ledger. rewrite HA, HB.
  repeat case_bool_decide; reflexivity.
Qed.

Lemma update_ledger_missing (m : Match) (db : DB) :
  competitors db !! teamAId m = None \/ competitors db !! teamBId m = None ->
  MatchController.update_ledger m db = db.
Proof.
  intros [H | H]; unfold MatchController.update_ledger; rewrite H;
    [reflexivity |].
  destruct (competitors db !! teamAId m); reflexivity.
Qed.



(** X5. A recorded draw on a match that has no winner touches no
    competitor. *)
Theorem draw_credits_nobody (now : Date) (db : DB) (id : ObjectId)
    (body : ResultBody) (m : Match) (a : Z) :
  matches db !! id = Some m ->
  b_scoreA body = Some a -> b_scoreB body = Some a -> winnerId m = None ->
  res_success (MatchController.setMatchResult now db id body).2 = true ->
  competitors (MatchController.setMatchResult now db id body).1 = competitors db /\
  (winnerId <$> matches (MatchController.setMatchResult now db id body).1 !! id)
    = Some None.
Proof.
  intros Hm Ha Hb Hw Hok.
  destruct (setMatchResult_success now db id body m a a Hm Ha Hb Hok)
    as [Hp Hdb]. rewrite Hdb. clear Hdb.
  set (this := (setResult now m (default "" (b_result body)) a a).1) in *.
  assert (Hwt : winnerId this = None).
  { subst this. unfold setResult. simpl. rewrite Z.gtb_ltb, Z.ltb_irrefl.
    simpl. exact Hw. }
  split.
  - unfold MatchController.update_ledger. rewrite Hwt.
    destruct (competitors _ !! teamAId this); [| reflexivity].
    destruct (competitors _ !! teamBId this); reflexivity.
  - rewrite update_ledger_matches. unfold store_match. cbn [matches].
    rewrite lookup_insert_eq. change (Some (winnerId this) = Some None).
    rewrite Hwt. reflexivity.
Qed.

Lemma draw_credits_nobody_witness :
  competitors (MatchController.setMatchResult 200 (playing (started 1)) 9%N
                 (mkResultBody None (Some 2) (Some 2))).1
    = competitors (playing (started 1)).
Proof.
  apply (draw_credits_nobody 200 (playing (started 1)) 9%N
           (mkResultBody None (Some 2) (Some 2)) (started 1) 2);
    reflexivity.
Defined.

(** X6. A successfully recorded draw does not clear a winner the match
    already has. When the competitor documents of both teams exist the
    statistics are updated from that winner: recording equal scores on a
    match won by one of its teams gives that team one more win and three
    more points, and the other team one more loss. When the document of
    either team is missing, no competitor is credited. *)
Theorem draw_after_decision_credits_again (now : Date) (db : DB)
    (id : ObjectId) (body : ResultBody) (m : Match) (a : Z) :
  matches db !! id = Some m ->
  b_scoreA body = Some a -> b_scoreB body = Some a ->
  winnerId m = Some (teamAId m) \/ winnerId m = Some (teamBId m) ->
  res_success (MatchController.setMatchResult now db id body).2 = true ->
  let db' := (MatchController.setMatchResult now db id body).1 in
  (winnerId <$> matches db' !! id) = Some (winnerId m) /\
  (forall ca cb : Competitor,
     competitors db !! teamAId m = Some ca ->
     competitors db !! teamBId m = Some cb ->
     competitors db' !! teamAId m =
       Some (updateStats ca (bool_decide (winnerId m = Some (teamAId m)))) /\
     competitors db' !! teamBId m =
       Some (updateStats cb (bool_decide (winnerId m = Some (teamBId m))))) /\
  (competitors db !! teamAId m = None \/ competitors db !! teamBId m = None ->
   competitors db' = competitors db).
Proof.
  intros Hm Ha Hb Hw Hok db'.
  destruct (setMatchResult_success now db id body m a a Hm Ha Hb Hok)
    as [Hp Hdb]. subst db'. rewrite Hdb. clear Hdb.
  set (this := (setResult now m (default "" (b_result body)) a a).1) in *.
  destruct (setResult_evolves now m (default "" (b_result body)) a a)
    as [(_ & HtA & HtB & _) _]. fold this in HtA, HtB.
  destruct Hp as (_ & Hab & _).
  assert (Hwt : winnerId this = winnerId m).
  { subst this. unfold setResult. simpl. rewrite Z.gtb_ltb, Z.ltb_irrefl.
    reflexivity. }
  split; [| split].
  - rewrite update_ledger_matches. unfold store_match. cbn [matches].
    rewrite lookup_insert_eq.
    change (Some (winnerId this) = Some (winnerId m)).
    rewrite Hwt. reflexivity.
  - intros ca cb HA HB.
    rewrite (update_ledger_competitors this (store_match id this db) ca cb);
      [| assumption
       | unfold store_match; cbn [competitors]; rewrite HtA; exact HA
       | unfold store_match; cbn [competitors]; rewrite HtB; exact HB].
    rewrite Hwt, HtA, HtB in *. unfold store_match. cbn [competitors].
    destruct Hw as [Hw | Hw]; rewrite Hw.
    + rewrite bool_decide_eq_true_2 by reflexivity.
      rewrite (bool_decide_eq_false_2 (Some (teamAId m) = Some (teamBId m)))
        by congruence.
      split; [rewrite lookup_insert_ne by congruence |]; apply lookup_insert_eq.
    + rewrite (bool_decide_eq_false_2 (Some (teamBId m) = Some (teamAId m)))
        by congruence.
      rewrite !bool_decide_eq_true_2 by reflexivity.
      split; [| rewrite lookup_insert_ne by congruence]; apply lookup_insert_eq.
  - intros Hmiss. rewrite update_ledger_missing; [reflexivity |].
    unfold store_match. cbn [competitors]. rewrite HtA, HtB. exact Hmiss.
Qed.

(** The match won 2-0 by team 1 is recorded again as a draw 1-1: team 1
    stays the winner and gets another win. After team 2 has withdrawn the
    winner stays as well, and nobody is credited. *)
Lemma draw_after_decision_credits_again_witness :
  (let db' := (MatchController.setMatchResult 400 (playing finished) 9%N
                 (mkResultBody None (Some 1) (Some 1))).1 in
   (winnerId <$> matches db' !! 9%N) = Some (Some 1%N) /\
   competitors db' !! 1%N = Some (mkCompetitor 7%N 1 0 3) /\
   competitors db' !! 2%N = Some (mkCompetitor 7%N 0 1 0)) /\
  (let db' := (MatchController.setMatchResult 400 (withdrawn finished) 9%N
                 (mkResultBody None (Some 1) (Some 1))).1 in
   (winnerId <$> matches db' !! 9%N) = Some (Some 1%N) /\
   competitors db' = competitors (withdrawn finished)).
Proof.
  split; intros db'.
  - destruct (draw_after_decision_credits_again 400 (playing finished) 9%N
                (mkResultBody None (Some 1) (Some 1)) finished 1)
      as (Hw & Hboth & _); try reflexivity; [left; reflexivity |].
    destruct (Hboth (mkCompetitor 7%N 0 0 0) (mkCompetitor 7%N 0 0 0))
      as (HA & HB); try reflexivity.
    split; [exact Hw |]. split; [exact HA | exact HB].
  - destruct (draw_after_decision_credits_again 400 (withdrawn finished) 9%N
                (mkResultBody None (Some 1) (Some 1)) finished 1)
      as (Hw & _ & Hmiss);
      [reflexivity | reflexivity | reflexivity | left; reflexivity
      | vm_compute; reflexivity |].
    split; [exact Hw |]. apply Hmiss. right. reflexivity.
Defined.

Lemma updateStats_ok (c : Competitor) (win : bool) :
  ledger_ok c -> ledger_ok (updateStats c win).
Proof.
  intros (Hp & Hw & Hl). destruct win; unfold ledger_ok; simpl; lia.
Qed.

Lemma store_competitor_ok (id : ObjectId) (c : Competitor) (db : DB) :
  ledger_ok c -> db_ledger_ok db -> db_ledger_ok (store_competitor id c db).
Proof.
  intros Hc Hdb id' c'. unfold store_competitor. cbn [competitors].
  rewrite lookup_insert. case_decide.
  - intros [= <-]. exact Hc.
  - apply Hdb.
Qed.

Lemma update_ledger_ok (m : Match) (db : DB) :
  db_ledger_ok db -> db_ledger_ok (MatchController.update_ledger m db).
Proof.
  intros Hdb. unfold MatchController.update_ledger.
  destruct (competitors db !! teamAId m) as [ca|] eqn:HA; [| exact Hdb].
  destruct (competitors db !! teamBId m) as [cb|] eqn:HB; [| exact Hdb].
  pose proof (Hdb _ _ HA) as HcA. pose proof (Hdb _ _ HB) as HcB.
  repeat case_bool_decide; try exact Hdb;
    repeat (apply store_competitor_ok; [apply updateStats_ok; assumption |]);
    exact Hdb.
Qed.

Lemma handle_ledger_ok (now : Date) (db : DB) (rq : Request) :
  db_ledger_ok db -> db_ledger_ok (handle now db rq).1.
Proof.
  intros Hdb.
  assert (Hsettle : forall id r done failed,
            db_ledger_ok (MatchController.settle db id r done failed).1).
  { intros id [this [a|e]] done failed; exact Hdb. }
  destruct rq as [newId body | id | id body | id newDate | id body
                 | id reason | id reason]; simpl.
  - unfold MatchController.createMatch.
    case_bool_decide; [| exact Hdb].
    destruct (findCompetitorIn db (b_teamAId body) _); [| exact Hdb].
    destruct (findCompetitorIn db (b_teamBId body) _); [| exact Hdb].
    destruct (save (new_Match body)) as [m|[errs|msg]]; exact Hdb.
  - unfold MatchController.startMatch.
    destruct (matches db !! id) as [m|]; [| exact Hdb].
    case_bool_decide; [exact Hdb | apply Hsettle].
  - unfold MatchController.setMatchResult.
    destruct (b_scoreA body) as [a|]; [| exact Hdb].
    destruct (b_scoreB body) as [b|]; [| exact Hdb].
    destruct (matches db !! id) as [m|]; [| exact Hdb].
    destruct (setResult now m (default "" (b_result body)) a b) as [this [x|e]];
      [| exact Hdb].
    apply update_ledger_ok. exact Hdb.
  - unfold MatchController.rescheduleMatch.
    destruct (MatchController.falsy newDate); [exact Hdb |].
    destruct (matches db !! id) as [m|]; [exact (Hsettle _ _ _ _) | exact Hdb].
  - unfold MatchController.addGame.
    destruct (matches db !! id) as [m|]; [| exact Hdb].
    destruct (addGame now m (MatchController.gameData_of m body)) as [this [x|e]];
      exact Hdb.
  - unfold MatchController.cancelMatch.
    destruct (matches db !! id) as [m|]; [exact (Hsettle _ _ _ _) | exact Hdb].
  - unfold MatchController.postponeMatch.
    destruct (matches db !! id) as [m|]; [exact (Hsettle _ _ _ _) | exact Hdb].
Qed.

(** X7. The statistics stay consistent: if every competitor has three
    points for each of its wins and no negative count, this still holds
    after any request, and after any run of requests. *)
Theorem ledger_stays_consistent (db : DB) (rqs : list (Date * Request)) :
  db_ledger_ok db -> db_ledger_ok (run db rqs).
Proof.
  revert db. induction rqs as [| [now rq] rqs IH]; intros db Hdb; simpl;
    [exact Hdb |].
  apply IH, handle_ledger_ok, Hdb.
Qed.

(** After a scheduling, a start, a result of 2-1 and the same result
    recorded once more, team 1 has two wins and six points. *)
Lemma ledger_stays_consistent_witness :
  let rqs := [(10, Schedule 9%N two_teams); (100, Start 9%N);
              (200, RecordResult 9%N (mkResultBody None (Some 2) (Some 1)));
              (300, RecordResult 9%N (mkResultBody None (Some 2) (Some 1)))] in
  db_ledger_ok (run db0 rqs) /\
  competitors (run db0 rqs) !! 1%N = Some (mkCompetitor 7%N 2 0 6).
Proof.
  intros rqs. split; [| vm_compute; reflexivity].
  apply ledger_stays_consistent.
  intros id c. unfold db0. cbn [competitors].
  rewrite !lookup_insert. repeat case_decide; rewrite ?lookup_empty;
    intros [= <-]; unfold ledger_ok; simpl; lia.
Defined.

(** ** Matches that cannot be started any more *)

(** X8. A scheduled match that carries an end time, as a completed match
    that was rescheduled does, cannot be started at or after that time: the
    save of the started match is rejected, the answer is 500 and the match
    stays scheduled. *)
Theorem rescheduled_after_end_cannot_start (now : Date) (db : DB)
    (id : ObjectId) (m : Match) (e : Date) :
  matches db !! id = Some m -> status m = scheduled ->
  endTime m = Some e -> e <= now ->
  MatchController.startMatch now db id =
    (db, fail 500 "Server error while starting match").
Proof.
  intros Hm Hs He Hle. unfold MatchController.startMatch. rewrite Hm.
  rewrite bool_decide_eq_false_2 by (intros H; apply H; assumption).
  unfold MatchController.settle.
  change (start now m) with ((start now m).1, save (start now m).1).
  destruct (save_cases (start now m).1) as [[_ (_ & _ & Hord)] | (err & -> & _)];
    [| reflexivity].
  exfalso. specialize (Hord e now). simpl in Hord.
  specialize (Hord He eq_refl). lia.
Qed.

(** The match finished at time 300 is rescheduled and then started at time
    1000: the start fails and the match is still the rescheduled one. *)
Lemma rescheduled_after_end_cannot_start_witness :
  let db := (MatchController.rescheduleMatch (playing finished) 9%N (Some 900)).1 in
  (status <$> matches db !! 9%N) = Some scheduled /\
  MatchController.startMatch 1000 db 9%N =
    (db, fail 500 "Server error while starting match").
Proof.
  intros db. split; [vm_compute; reflexivity |].
  apply (rescheduled_after_end_cannot_start 1000 db 9%N
           (set_status scheduled (set_scheduleAt 900 finished)) 300);
    [vm_compute; reflexivity | reflexivity | reflexivity | lia].
Defined.

(** ** Counting games *)

Lemma wins_le_length (team : ObjectId) (gs : list Game) :
  wins team gs <= Z.of_nat (length gs).
Proof.
  unfold wins. pose proof (List.filter_length_le (won_by team) gs). lia.
Qed.

(** Between two distinct teams a game counts for one of them at most, and
    for exactly one when it is decisive. *)
Lemma wins_sum (m : Match) (gs : list Game) :
  teamAId m <> teamBId m ->
  wins (teamAId m) gs + wins (teamBId m) gs <= Z.of_nat (length gs) /\
  (Forall (decisive m) gs ->
   wins (teamAId m) gs + wins (teamBId m) gs = Z.of_nat (length gs)).
Proof.
  intros Hab. unfold wins.
  induction gs as [|g gs [IHle IHeq]]; [split; [simpl; lia | reflexivity] |].
  assert (Hcase : (won_by (teamAId m) g = true /\ won_by (teamBId m) g = false) \/
                  (won_by (teamAId m) g = false /\ won_by (teamBId m) g = true) \/
                  (won_by (teamAId m) g = false /\ won_by (teamBId m) g = false /\
                   ~ decisive m g)).
  { unfold won_by, decisive. destruct (winner g) as [w|].
    - repeat case_bool_decide; subst; try contradiction; auto.
      right. right. repeat split; auto. intros [[=] | [=]]; contradiction.
    - right. right. repeat split; auto. intros [[=] | [=]]. }
  split.
  - simpl. destruct Hcase as [[-> ->] | [[-> ->] | (-> & -> & _)]];
      simpl length; lia.
  - intros Hall. apply Forall_cons in Hall as [Hg Hall].
    specialize (IHeq Hall). simpl.
    destruct Hcase as [[-> ->] | [[-> ->] | (_ & _ & Hn)]];
      [simpl length; lia .. | contradiction].
Qed.

(** X9. A best of [N] is decided by its [N]-th decisive game at the
    latest: when the teams differ, every game of the sequence was won by one
    of them and the game added is at least the [N]-th, [addGame] completes
    the match with one of the two teams as winner. *)
Theorem decided_by_the_last_game (now : Date) (m : Match) (g : Game) :
  teamAId m <> teamBId m ->
  Forall (decisive m) (games m ++ [g]) ->
  bestOf m <= Z.of_nat (length (games m ++ [g])) ->
  let this := (addGame now m g).1 in
  status this = completed /\ endTime this = Some now /\
  (winnerId this = Some (teamAId m) \/ winnerId this = Some (teamBId m)).
Proof.
  intros Hab Hall Hlen this.
  destruct (wins_sum m (games m ++ [g]) Hab) as [_ Hsum].
  specialize (Hsum Hall).
  pose proof (Math_ceil_div_2 (bestOf m)) as Hreq.
  subst this. rewrite addGame_this. cbv zeta.
  destruct (Z.leb_spec (Math_ceil_div (bestOf m) 2)
              (wins (teamAId m) (games m ++ [g]))) as [HA | HA];
    [simpl; auto |].
  destruct (Z.leb_spec (Math_ceil_div (bestOf m) 2)
              (wins (teamBId m) (games m ++ [g]))) as [HB | HB];
    [simpl; auto | lia].
Qed.

(** A best of three at one win each is decided by the third game. *)
Lemma decided_by_the_last_game_witness :
  let m2 := (addGame 300 (addGame 200 (started 3) (won 1 1%N)).1 (won 2 2%N)).1 in
  status m2 = ongoing /\ status (addGame 400 m2 (won 3 2%N)).1 = completed.
Proof.
  intros m2. split; [reflexivity |].
  apply (decided_by_the_last_game 400 m2 (won 3 2%N)).
  - discriminate.
  - repeat constructor; (left; reflexivity) || (right; reflexivity).
  - simpl. lia.
Defined.

(** X10. A best of [N] is not decided before [ceil(N / 2)] games: while
    the sequence, the added game included, is shorter than the required
    number of wins, [addGame] leaves status, winner and end time as they
    are. *)
Theorem not_decided_too_early (now : Date) (m : Match) (g : Game) :
  Z.of_nat (length (games m ++ [g])) < Math_ceil_div (bestOf m) 2 ->
  let this := (addGame now m g).1 in
  status this = status m /\ winnerId this = winnerId m /\
  endTime this = endTime m.
Proof.
  intros Hlen this. subst this.
  rewrite addGame_undecided; [repeat split | |].
  - pose proof (wins_le_length (teamAId m) (games m ++ [g])). lia.
  - pose proof (wins_le_length (teamBId m) (games m ++ [g])). lia.
Qed.

(** The first two games of a best of five decide nothing, whoever wins
    them. *)
Lemma not_decided_too_early_witness :
  let m1 := (addGame 200 (started 5) (won 1 1%N)).1 in
  status (addGame 300 m1 (won 2 1%N)).1 = ongoing /\
  winnerId (addGame 300 m1 (won 2 1%N)).1 = None.
Proof.
  intros m1.
  destruct (not_decided_too_early 300 m1 (won 2 1%N)) as (Hs & Hw & _).
  - vm_compute. reflexivity.
  - split; [exact Hs | exact Hw].
Defined.

(** X11. Games recorded without a number are numbered in order: when the
    games of a match are numbered 1, 2, 3, ... and a game is added through
    the handler with no [gameNumber] (or with 0), the stored match has one
    game more and its games are still so numbered. *)
Theorem games_numbered_in_order (now : Date) (db : DB) (id : ObjectId)
    (body : GameBody) (m : Match) :
  matches db !! id = Some m -> numbered (games m) ->
  b_gameNumber body = None \/ b_gameNumber body = Some 0 ->
  res_success (MatchController.addGame now db id body).2 = true ->
  exists m', matches (MatchController.addGame now db id body).1 !! id = Some m' /\
    length (games m') = S (length (games m)) /\ numbered (games m').
Proof.
  intros Hm Hnum Hno. unfold MatchController.addGame. rewrite Hm.
  assert (Hg : gameNumber (MatchController.gameData_of m body) =
               Z.of_nat (length (games m)) + 1).
  { unfold MatchController.gameData_of. cbn [gameNumber].
    destruct Hno as [H | H]; rewrite H; reflexivity. }
  remember (MatchController.gameData_of m body) as g eqn:Heqg. clear Heqg.
  pose proof (addGame_frame now m g) as (_ & _ & _ & _ & Hgames).
  destruct (addGame now m g) as [this [x|e]]; simpl in *; [| discriminate].
  intros _. exists this. rewrite lookup_insert_eq. split; [reflexivity |].
  rewrite Hgames. split; [rewrite length_app; simpl; lia |].
  intros i g' Hi. apply lookup_app_Some in Hi as [Hi | [Hlen Hi]].
  - apply Hnum. exact Hi.
  - destruct (i - length (games m))%nat as [|k] eqn:Hk; simpl in Hi;
      [| rewrite lookup_nil in Hi; discriminate].
    injection Hi as <-. rewrite Hg. lia.
Qed.

(** Two games added to a started match without numbers get the numbers 1
    and 2. *)
Lemma games_numbered_in_order_witness :
  let body := mkGameBody None (Some 1) (Some 0) (Some 1%N) None None in
  let db1 := (MatchController.addGame 200 (playing (started 3)) 9%N body).1 in
  exists m', matches (MatchController.addGame 300 db1 9%N body).1 !! 9%N = Some m' /\
    gameNumber <$> games m' = [1; 2].
Proof.
  intros body db1.
  destruct (games_numbered_in_order 300 db1 9%N body
              (addGame 200 (started 3) (MatchController.gameData_of (started 3) body)).1)
    as (m' & Hm' & _ & _).
  - vm_compute. reflexivity.
  - intros [|[|i]] g; simpl; [intros [= <-]; reflexivity | discriminate ..].
  - left. reflexivity.
  - vm_compute. reflexivity.
  - exists m'. split; [exact Hm' |].
    vm_compute in Hm'. injection Hm' as <-. reflexivity.
Defined.

(** * Queries *)

Lemma elem_of_find (P : Match -> bool) (db : DB) (id : ObjectId) (m : Match) :
  (id, m) ∈ find P db <-> matches db !! id = Some m /\ P m = true.
Proof.
  unfold find. rewrite elem_of_map_to_list, map_lookup_filter_Some. reflexivity.
Qed.

Lemma NoDup_find (P : Match -> bool) (db : DB) : NoDup (find P db).*1.
Proof. apply NoDup_fst_map_to_list. Qed.

Lemma elem_of_sort (x : Found) (l : list Found) :
  x ∈ sort_scheduleAt l <-> x ∈ l.
Proof. unfold sort_scheduleAt. rewrite merge_sort_Permutation. reflexivity. Qed.

Lemma sort_sorted (l : list Found) : StronglySorted earlier (sort_scheduleAt l).
Proof. apply StronglySorted_merge_sort; apply _. Qed.

Lemma NoDup_sort (l : list Found) : NoDup l.*1 -> NoDup (sort_scheduleAt l).*1.
Proof.
  intros H. unfold sort_scheduleAt.
  rewrite (merge_sort_Permutation earlier l). exact H.
Qed.

(** X12. The upcoming matches are exactly the stored matches that are
    scheduled and whose scheduled time is not before the time of the query,
    each listed once, in the order of their scheduled times. *)
Theorem findUpcoming_spec (now : Date) (db : DB) :
  (forall id m, (id, m) ∈ MatchStatics.findUpcoming now db <->
     matches db !! id = Some m /\ status m = scheduled /\ now <= scheduleAt m) /\
  NoDup (MatchStatics.findUpcoming now db).*1 /\
  StronglySorted earlier (MatchStatics.findUpcoming now db).
Proof.
  unfold MatchStatics.findUpcoming. split; [| split].
  - intros id m. rewrite elem_of_sort, elem_of_find.
    rewrite andb_true_iff, bool_decide_eq_true, Z.leb_le. tauto.
  - apply NoDup_sort, NoDup_find.
  - apply sort_sorted.
Qed.

Lemma limit_pos {A} (n : Z) (l : list A) :
  0 < n -> limit n l = take (Z.to_nat n) l.
Proof.
  intros Hn. unfold limit. destruct (Z.eqb_spec n 0); [lia |].
  rewrite Z.abs_eq by lia. reflexivity.
Qed.

(** X13. With a positive limit [n] (10 when none is given), the handler
    of the upcoming matches answers with at most [n] of them, and with the
    earliest ones: a match it leaves out is not scheduled before any match
    it returns. When there are no more than [n] upcoming matches, all are
    returned. *)
Theorem getUpcomingMatches_earliest (now : Date) (db : DB) (limit_ : option Z) :
  let n := default 10 limit_ in
  let upcoming := MatchStatics.findUpcoming now db in
  let r := lr_matches (getUpcomingMatches now db limit_) in
  0 < n ->
  Z.of_nat (length r) <= n /\
  (forall x, x ∈ r -> x ∈ upcoming) /\
  (forall x y, x ∈ r -> y ∈ upcoming -> y ∉ r -> earlier x y) /\
  (Z.of_nat (length upcoming) <= n -> r = upcoming).
Proof.
  intros n upcoming r Hn.
  assert (Hr : r = take (Z.to_nat n) upcoming) by (apply limit_pos; exact Hn).
  pose proof (take_drop (Z.to_nat n) upcoming) as Hsplit.
  pose proof (sort_sorted
    (find (fun m => bool_decide (status m = scheduled) && (now <=? scheduleAt m))
       db)) as Hsorted.
  change (StronglySorted earlier upcoming) in Hsorted.
  rewrite Hr. split; [| split; [| split]].
  - rewrite length_take. lia.
  - intros x Hx. rewrite <- Hsplit. apply elem_of_app. left. exact Hx.
  - intros x y Hx Hy Hny. rewrite <- Hsplit in Hy, Hsorted.
    apply elem_of_app in Hy as [Hy | Hy]; [contradiction |].
    eapply StronglySorted_app_1_elem_of; eassumption.
  - intros Hlen. apply take_ge. lia.
Qed.

(** Of three scheduled matches, a limit of 2 returns the two earliest. *)
Lemma getUpcomingMatches_earliest_witness :
  Z.of_nat (length (lr_matches (getUpcomingMatches 60 three_scheduled (Some 2))))
    <= 2 /\
  (lr_matches (getUpcomingMatches 60 three_scheduled (Some 2))).*1
    = [12%N; 10%N].
Proof.
  destruct (getUpcomingMatches_earliest 60 three_scheduled (Some 2))
    as (Hlen & _).
  - simpl. lia.
  - split; [exact Hlen | vm_compute; reflexivity].
Defined.

(** ** Pages *)

Lemma Math_ceil_div_spec (a b : Z) :
  0 < b -> b * (Math_ceil_div a b - 1) < a <= b * Math_ceil_div a b.
Proof.
  intros Hb. unfold Math_ceil_div.
  pose proof (Z.div_mod (- a) b ltac:(lia)) as Hdm.
  pose proof (Z.mod_pos_bound (- a) b Hb) as Hbound.
  nia.
Qed.

Lemma chunks_concat {A} (L k : nat) (l : list A) :
  concat ((fun i => take L (drop (i * L) l)) <$> seq 0 k) = take (k * L) l.
Proof.
  induction k as [|k IH]; [reflexivity |].
  rewrite seq_S, fmap_app, concat_app, IH. simpl. rewrite app_nil_r.
  rewrite take_take_drop. f_equal. lia.
Qed.

Lemma length_findByTournament (tid : ObjectId) (db : DB) :
  Z.of_nat (length (MatchStatics.findByTournament tid db)) =
  countByTournament tid db.
Proof.
  unfold MatchStatics.findByTournament, countByTournament, sort_scheduleAt.
  rewrite (merge_sort_Permutation earlier). reflexivity.
Qed.

Lemma getMatchesByTournament_page (db : DB) (tid : ObjectId) (p L : Z) :
  0 < L -> 1 <= p ->
  getMatchesByTournament db tid (Some p) (Some L) =
    mkListResponse 200 true None
      (take (Z.to_nat L)
         (drop (Z.to_nat (p - 1) * Z.to_nat L)
            (MatchStatics.findByTournament tid db)))
      (Some (mkPagination p
               (Some (Math_ceil_div (countByTournament tid db) L))
               (countByTournament tid db))).
Proof.
  intros HL Hp. unfold getMatchesByTournament, skip. simpl.
  destruct (Z.ltb_spec ((p - 1) * L) 0); [nia |].
  rewrite limit_pos by lia.
  destruct (Z.eqb_spec L 0); [lia |].
  rewrite Z.mul_1_r. repeat f_equal. nia.
Qed.

(** X14. The pages of the matches of a tournament, for a positive page
    size, cover them all: every page from 1 on has at most [limit] matches
    and tells the same total and the same number of pages,
    [ceil(total / limit)]; the pages 1 to that number, one after the other,
    are the matches of the tournament in the order of their scheduled
    times; every later page is empty; and a page before the first is
    answered 500. *)
Theorem getMatchesByTournament_pages (db : DB) (tid : ObjectId) (L : Z) :
  0 < L ->
  let all := MatchStatics.findByTournament tid db in
  let np := Math_ceil_div (Z.of_nat (length all)) L in
  let page p := getMatchesByTournament db tid (Some p) (Some L) in
  (forall p, 1 <= p ->
     lr_pagination (page p) =
       Some (mkPagination p (Some np) (Z.of_nat (length all))) /\
     Z.of_nat (length (lr_matches (page p))) <= L) /\
  concat ((fun p => lr_matches (page p)) <$> seqZ 1 np) = all /\
  (forall p, np < p -> lr_matches (page p) = []) /\
  (forall p, p < 1 -> lr_status (page p) = 500 /\ lr_matches (page p) = []).
Proof.
  intros HL all np page.
  pose proof (Math_ceil_div_spec (Z.of_nat (length all)) L HL) as Hnp.
  fold np in Hnp.
  assert (Hnp0 : 0 <= np) by nia.
  split; [| split; [| split]].
  - intros p Hp. subst page. cbv beta.
    rewrite getMatchesByTournament_page by assumption. simpl.
    rewrite <- length_findByTournament. fold all. fold np.
    split; [reflexivity |]. rewrite length_take. lia.
  - unfold seqZ. rewrite <- list_fmap_compose.
    rewrite (list_fmap_ext _ (fun i => take (Z.to_nat L)
                                (drop (i * Z.to_nat L) all)) (seq 0 (Z.to_nat np))).
    + rewrite chunks_concat. apply take_ge. nia.
    + intros i x Hx. simpl. subst page. cbv beta.
      rewrite getMatchesByTournament_page by lia. simpl.
      replace (Z.to_nat (Z.of_nat x + 1 - 1)) with x by lia. reflexivity.
  - intros p Hp. subst page. cbv beta.
    rewrite getMatchesByTournament_page by lia. simpl.
    rewrite drop_ge; [destruct (Z.to_nat L); reflexivity |]. fold all. nia.
  - intros p Hp. subst page. cbv beta.
    unfold getMatchesByTournament, skip. simpl.
    destruct (Z.ltb_spec ((p - 1) * L) 0); [split; reflexivity | nia].
Qed.

(** Three matches in pages of two: two pages, of two matches and of one. *)
Lemma getMatchesByTournament_pages_witness :
  let page p := getMatchesByTournament three_scheduled 7%N (Some p) (Some 2) in
  lr_pagination (page 1) = Some (mkPagination 1 (Some 2) 3) /\
  (lr_matches (page 1)).*1 = [12%N; 10%N] /\
  (lr_matches (page 2)).*1 = [11%N] /\
  lr_matches (page 3) = [].
Proof.
  intros page.
  destruct (getMatchesByTournament_pages three_scheduled 7%N 2 ltac:(lia))
    as (Hpag & _ & Hlate & _).
  split; [exact (proj1 (Hpag 1 ltac:(lia))) |].
  split; [vm_compute; reflexivity |].
  split; [vm_compute; reflexivity |].
  apply Hlate. vm_compute. reflexivity.
Defined.

(** ** Writing, then reading *)

Lemma startMatch_success (now : Date) (db : DB) (id : ObjectId) :
  res_success (MatchController.startMatch now db id).2 = true ->
  exists m, matches db !! id = Some m /\ status m = scheduled /\
    (MatchController.startMatch now db id).1 = store_match id (start now m).1 db.
Proof.
  unfold MatchController.startMatch.
  destruct (matches db !! id) as [m|]; [| discriminate].
  case_bool_decide as Hs; [discriminate |].
  unfold MatchController.settle.
  destruct (start now m) as [this [x|e]] eqn:Hstart; simpl; [| discriminate].
  intros _. exists m. split; [reflexivity |].
  split; [destruct (decide (status m = scheduled)); [assumption | contradiction] |].
  apply (f_equal fst) in Hstart. simpl in Hstart. subst this. reflexivity.
Qed.

(** X15. A match that was started is listed among the ongoing matches,
    with the time of the start, and is no longer among the upcoming ones,
    whatever the time of the query. *)
Theorem started_match_is_ongoing (now : Date) (db : DB) (id : ObjectId) :
  res_success (MatchController.startMatch now db id).2 = true ->
  let db' := (MatchController.startMatch now db id).1 in
  (exists m', (id, m') ∈ MatchStatics.findOngoing db' /\
              startTime m' = Some now) /\
  (forall t m', (id, m') ∉ MatchStatics.findUpcoming t db').
Proof.
  intros Hok db'.
  destruct (startMatch_success now db id Hok) as (m & Hm & Hs & Hdb).
  subst db'. rewrite Hdb. split.
  - exists (start now m).1. split; [| reflexivity].
    unfold MatchStatics.findOngoing. apply elem_of_find.
    unfold store_match. cbn [matches]. rewrite lookup_insert_eq.
    split; reflexivity.
  - intros t m' Hin. unfold MatchStatics.findUpcoming in Hin.
    apply elem_of_sort, elem_of_find in Hin as [Hlook Hp].
    unfold store_match in Hlook. cbn [matches] in Hlook.
    rewrite lookup_insert_eq in Hlook. injection Hlook as <-.
    simpl in Hp. discriminate.
Qed.

Lemma started_match_is_ongoing_witness :
  let db' := (MatchController.startMatch 100 (playing fresh) 9%N).1 in
  (MatchStatics.findOngoing db').*1 = [9%N] /\
  forall t m', (9%N, m') ∉ MatchStatics.findUpcoming t db'.
Proof.
  intros db'. split; [vm_compute; reflexivity |].
  apply (started_match_is_ongoing 100 (playing fresh) 9%N).
  vm_compute. reflexivity.
Defined.

(** X16. A match that was scheduled can be read back: after a successful
    create-match request, the match returned is the one stored under the
    new id, it is listed for its tournament and for each of its two
    competitors, its scheduled time is the date of the request, and it is
    upcoming at every time up to its scheduled time. *)
Theorem scheduled_match_is_found (newId : ObjectId) (db : DB)
    (body : CreateBody) :
  res_success (MatchController.createMatch newId db body).2 = true ->
  let db' := (MatchController.createMatch newId db body).1 in
  let m := new_Match body in
  res_data (MatchController.createMatch newId db body).2 = Some m /\
  getMatchById db' newId = mkResponse 200 true "" [] (Some m) /\
  (newId, m) ∈ MatchStatics.findByTournament (b_tournamentId body) db' /\
  (newId, m) ∈ MatchStatics.findByCompetitor (b_teamAId body) db' /\
  (newId, m) ∈ MatchStatics.findByCompetitor (b_teamBId body) db' /\
  b_scheduleAt body = Some (scheduleAt m) /\
  (forall t, t <= scheduleAt m ->
     (newId, m) ∈ MatchStatics.findUpcoming t db').
Proof.
  intros Hok db' m.
  assert (Hr : MatchController.createMatch newId db body =
               (store_match newId m db,
                ok 201 "Match created successfully" (Some m)) /\
               persistable m).
  { revert Hok. unfold MatchController.createMatch.
    case_bool_decide; [| discriminate].
    destruct (findCompetitorIn db (b_teamAId body) _); [| discriminate].
    destruct (findCompetitorIn db (b_teamBId body) _); [| discriminate].
    destruct (save_cases (new_Match body)) as [[-> Hp] | (e & -> & _)];
      [split; [reflexivity | exact Hp] | destruct e; discriminate]. }
  destruct Hr as [Hr Hp].
  subst db'. rewrite Hr. cbn [fst snd].
  assert (Hlook : matches (store_match newId m db) !! newId = Some m)
    by apply lookup_insert_eq.
  split; [reflexivity |].
  split; [unfold getMatchById; rewrite Hlook; reflexivity |].
  split; [| split; [| split; [| split]]].
  - apply elem_of_sort, elem_of_find. split; [exact Hlook |].
    apply bool_decide_eq_true_2. reflexivity.
  - apply elem_of_find. split; [exact Hlook |]. simpl.
    rewrite bool_decide_eq_true_2 by reflexivity. reflexivity.
  - apply elem_of_find. split; [exact Hlook |]. simpl.
    rewrite (bool_decide_eq_true_2 (b_teamBId body = b_teamBId body))
      by reflexivity.
    apply orb_true_r.
  - destruct Hp as [[Hdate _ _ _ _ _ _ _] _].
    apply new_Date_Some. exact Hdate.
  - intros t Ht. apply elem_of_sort, elem_of_find. split; [exact Hlook |].
    simpl. apply Z.leb_le. exact Ht.
Qed.

Lemma scheduled_match_is_found_witness :
  let db' := (MatchController.createMatch 9%N db0 two_teams).1 in
  getMatchById db' 9%N = mkResponse 200 true "" [] (Some (new_Match two_teams)) /\
  (9%N, new_Match two_teams) ∈ MatchStatics.findByCompetitor 2%N db'.
Proof.
  intros db'.
  destruct (scheduled_match_is_found 9%N db0 two_teams)
    as (_ & Hget & _ & _ & HB & _ & _).
  - vm_compute. reflexivity.
  - split; [exact Hget | exact HB].
Defined.

(** X17. A deleted match is gone, and only that match: after the delete
    handler has removed a match, reading it is answered 404, no query finds
    it, deleting it again is answered 404 and changes nothing, and every
    other match reads as before. *)
Theorem deleted_match_is_gone (db : DB) (id : ObjectId) (m : Match) :
  matches db !! id = Some m ->
  let db' := (deleteMatch db id).1 in
  res_success (deleteMatch db id).2 = true /\
  getMatchById db' id = fail 404 "Match not found" /\
  (forall P m', (id, m') ∉ find P db') /\
  deleteMatch db' id = (db', fail 404 "Match not found") /\
  (forall id', id' <> id -> getMatchById db' id' = getMatchById db id') /\
  tournaments db' = tournaments db /\ competitors db' = competitors db.
Proof.
  intros Hm db'. subst db'. unfold deleteMatch. rewrite Hm. cbn [fst snd].
  split; [reflexivity |].
  split; [unfold getMatchById; cbn [matches]; rewrite lookup_delete_eq;
          reflexivity |].
  split; [| split; [| split; [| split; reflexivity]]].
  - intros P m' Hin. apply elem_of_find in Hin as [Hlook _].
    cbn [matches] in Hlook. rewrite lookup_delete_eq in Hlook. discriminate.
  - cbn [matches]. rewrite lookup_delete_eq. reflexivity.
  - intros id' Hne. unfold getMatchById. cbn [matches].
    rewrite lookup_delete_ne by congruence. reflexivity.
Qed.

Lemma deleted_match_is_gone_witness :
  getMatchById (deleteMatch (playing fresh) 9%N).1 9%N =
    fail 404 "Match not found" /\
  deleteMatch db0 9%N = (db0, fail 404 "Match not found").
Proof.
  destruct (deleted_match_is_gone (playing fresh) 9%N fresh) as (_ & H & _).
  - apply lookup_insert_eq.
  - split; [exact H | reflexivity].
Defined.

(** X18. Deleting a tournament takes its competitors and its matches
    with it and nothing else: afterwards the tournament has no match and no
    competitor, a match can no longer be scheduled in it (404), the
    matches that remain are exactly the matches of the other tournaments,
    the competitors that remain are exactly the competitors of the other
    tournaments, each as it was, and the tournaments that remain are
    exactly the other tournaments. The answer is 200. For a tournament that
    does not exist the answer is 404 and nothing is deleted. *)
Theorem deleted_tournament_takes_its_matches (db : DB) (id : ObjectId) :
  let db' := (TournamentController.deleteTournament db id).1 in
  (id ∉ tournaments db ->
   TournamentController.deleteTournament db id =
     (db, fail 404 "Tournament not found")) /\
  (id ∈ tournaments db ->
   MatchStatics.findByTournament id db' = [] /\
   (forall c, findCompetitorIn db' c id = None) /\
   (forall newId body, b_tournamentId body = id ->
      MatchController.createMatch newId db' body =
        (db', fail 404 "Tournament not found")) /\
   (forall i m, matches db' !! i = Some m <->
      matches db !! i = Some m /\ tournamentId m <> id) /\
   (forall c x, competitors db' !! c = Some x <->
      competitors db !! c = Some x /\ c_tournamentId x <> id) /\
   (forall t, t ∈ tournaments db' <-> t ∈ tournaments db /\ t <> id) /\
   res_status (TournamentController.deleteTournament db id).2 = 200).
Proof.
  intros db'. subst db'. unfold TournamentController.deleteTournament.
  split.
  - intros Hno. rewrite bool_decide_eq_false_2 by assumption. reflexivity.
  - intros Hin. rewrite bool_decide_eq_true_2 by assumption. cbn [fst].
    split; [| split; [| split; [| split; [| split; [| split]]]]];
      [| | | | | | reflexivity].
    + apply elem_of_nil_inv. intros [i m] Hx.
      unfold MatchStatics.findByTournament in Hx.
      apply elem_of_sort, elem_of_find in Hx as [Hlook Ht].
      cbn [matches] in Hlook.
      apply map_lookup_filter_Some in Hlook as [_ Hne]. simpl in Hne.
      apply bool_decide_eq_true in Ht. contradiction.
    + intros c. unfold findCompetitorIn. cbn [competitors].
      destruct (filter _ (competitors db) !! c) as [x|] eqn:Hc; [| reflexivity].
      apply map_lookup_filter_Some in Hc as [_ Hne]. simpl in Hne.
      rewrite bool_decide_eq_false_2 by assumption. reflexivity.
    + intros newId body Hb. unfold MatchController.createMatch.
      rewrite bool_decide_eq_false_2; [reflexivity |].
      cbn [tournaments]. rewrite Hb. intros Hin'.
      apply elem_of_difference in Hin' as [_ Hn].
      apply Hn, elem_of_singleton. reflexivity.
    + intros i m. cbn [matches]. rewrite map_lookup_filter_Some. reflexivity.
    + intros c x. cbn [competitors]. rewrite map_lookup_filter_Some.
      reflexivity.
    + intros t. cbn [tournaments]. rewrite elem_of_difference, elem_of_singleton.
      reflexivity.
Qed.

(** X19. The handlers of the engine never touch the tournaments, and the
    only competitors a request can change are the two teams of the match a
    result is recorded for. *)
Theorem only_the_two_teams_change (now : Date) (db : DB) (rq : Request) :
  tournaments (handle now db rq).1 = tournaments db /\
  (forall c, competitors (handle now db rq).1 !! c <> competitors db !! c ->
     exists id body m, rq = RecordResult id body /\
       matches db !! id = Some m /\ (c = teamAId m \/ c = teamBId m)).
Proof.
  assert (Hsettle : forall id r done failed,
            tournaments (MatchController.settle db id r done failed).1
              = tournaments db /\
            competitors (MatchController.settle db id r done failed).1
              = competitors db).
  { intros id [this [x|e]] done failed; split; reflexivity. }
  assert (Hsame : forall db' : DB,
            tournaments db' = tournaments db -> competitors db' = competitors db ->
            tournaments db' = tournaments db /\
            (forall c, competitors db' !! c <> competitors db !! c ->
               exists id body m, rq = RecordResult id body /\
                 matches db !! id = Some m /\ (c = teamAId m \/ c = teamBId m))).
  { intros db' Ht Hc. split; [exact Ht |]. intros c Hne.
    rewrite Hc in Hne. contradiction. }
  destruct rq as [newId body | id | id body | id newDate | id body
                 | id reason | id reason]; simpl.
  - apply Hsame; unfold MatchController.createMatch;
      case_bool_decide; try reflexivity;
      destruct (findCompetitorIn db (b_teamAId body) _); try reflexivity;
      destruct (findCompetitorIn db (b_teamBId body) _); try reflexivity;
      destruct (save (new_Match body)) as [m|[errs|msg]]; reflexivity.
  - apply Hsame; unfold MatchController.startMatch;
      destruct (matches db !! id) as [m|]; try reflexivity;
      case_bool_decide; try reflexivity; apply Hsettle.
  - unfold MatchController.setMatchResult.
    destruct (b_scoreA body) as [a|] eqn:Ha;
      [| split; [reflexivity | intros c Hc; exfalso; apply Hc; reflexivity]].
    destruct (b_scoreB body) as [b|] eqn:Hb;
      [| split; [reflexivity | intros c Hc; exfalso; apply Hc; reflexivity]].
    destruct (matches db !! id) as [m|] eqn:Hm;
      [| split; [reflexivity | intros c Hc; exfalso; apply Hc; reflexivity]].
    pose proof (setResult_evolves now m (default "" (b_result body)) a b)
      as [(_ & HtA & HtB & _) _].
    destruct (setResult now m (default "" (b_result body)) a b) as [this [x|e]];
      [| split; [reflexivity | intros c Hc; exfalso; apply Hc; reflexivity]].
    cbn [fst] in *. unfold MatchController.update_ledger.
    change (competitors (store_match id this db)) with (competitors db).
    destruct (competitors db !! teamAId this) as [ca|];
      [| split; [reflexivity | intros c Hc; exfalso; apply Hc; reflexivity]].
    destruct (competitors db !! teamBId this) as [cb|];
      [| split; [reflexivity | intros c Hc; exfalso; apply Hc; reflexivity]].
    assert (Hteam : forall cs' : gmap ObjectId Competitor,
              (forall c, c <> teamAId this -> c <> teamBId this ->
                 cs' !! c = competitors db !! c) ->
              forall c, cs' !! c <> competitors db !! c ->
                c = teamAId this \/ c = teamBId this).
    { intros cs' Hcs c Hc.
      destruct (decide (c = teamAId this)) as [|HnA]; [left; assumption |].
      destruct (decide (c = teamBId this)) as [|HnB]; [right; assumption |].
      exfalso. apply Hc, Hcs; assumption. }
    split; [repeat case_bool_decide; reflexivity |].
    intros c Hc. exists id, body, m.
    split; [reflexivity |]. split; [exact Hm |].
    rewrite <- HtA, <- HtB. revert c Hc. apply Hteam.
    intros c HnA HnB.
    repeat case_bool_decide; unfold store_competitor, store_match;
      cbn [competitors]; rewrite ?lookup_insert_ne by congruence; reflexivity.
  - apply Hsame; unfold MatchController.rescheduleMatch;
      destruct (MatchController.falsy newDate); try reflexivity;
      destruct (matches db !! id) as [m|]; try reflexivity; apply Hsettle.
  - apply Hsame; unfold MatchController.addGame;
      destruct (matches db !! id) as [m|]; try reflexivity;
      destruct (addGame now m (MatchController.gameData_of m body)) as [this [x|e]];
      reflexivity.
  - apply Hsame; unfold MatchController.cancelMatch;
      destruct (matches db !! id) as [m|]; try reflexivity; apply Hsettle.
  - apply Hsame; unfold MatchController.postponeMatch;
      destruct (matches db !! id) as [m|]; try reflexivity; apply Hsettle.
Qed.

(** * Teams of a tournament *)

Section TournamentTeams.
Context {P : Type} (save : Tournament.t -> P).

Lemma remove_first_absent (c : ObjectId) (l : list ObjectId) :
  c ∉ l -> Tournament.remove_first c l = l.
Proof.
  induction l as [|x l IH]; [reflexivity |]. intros Hc. simpl.
  apply not_elem_of_cons in Hc as [Hne Hc].
  rewrite bool_decide_eq_false_2 by congruence. rewrite IH by assumption.
  reflexivity.
Qed.

Lemma remove_first_present (c : ObjectId) (l : list ObjectId) :
  c ∈ l -> NoDup l ->
  S (length (Tournament.remove_first c l)) = length l /\
  NoDup (Tournament.remove_first c l) /\ (c ∉ Tournament.remove_first c l) /\
  (forall x, x ∈ Tournament.remove_first c l -> x ∈ l).
Proof.
  induction l as [|x l IH]; intros Hc Hnd; [inversion Hc |].
  apply NoDup_cons in Hnd as [Hx Hnd]. simpl. case_bool_decide as Hxc.
  - subst x. repeat split; auto. intros y Hy. apply elem_of_cons. auto.
  - apply elem_of_cons in Hc as [-> | Hc]; [contradiction |].
    destruct (IH Hc Hnd) as (Hlen & Hnd' & Hnot & Hsub). repeat split.
    + simpl. lia.
    + apply NoDup_cons. split; [| assumption]. intros Hin. apply Hx, Hsub, Hin.
    + apply not_elem_of_cons. split; [congruence | assumption].
    + intros y Hy. apply elem_of_cons in Hy as [-> | Hy];
        apply elem_of_cons; auto.
Qed.

(** X20. The team methods keep the count of a tournament right. On a
    tournament whose teams are listed once each, counted by
    [currentPlayers] and no more than [maxPlayers], [addTeam] throws
    "Tournament is full" when the tournament is full and does not throw when
    it is not: a team that is not listed is then put at the end of the list,
    the count goes up by one and the document is saved, and for a team that
    is listed the document is returned as it is, without a save; either way
    the team is listed afterwards. [removeTeam] leaves it not listed; and
    after either method the teams are still listed once each, counted, and
    no more than [maxPlayers]. A tournament open for registration is not
    full, so [addTeam] does not throw on it. *)
Theorem teams_stay_counted (this : Tournament.t) (c : ObjectId) :
  Tournament.counted this ->
  let added := Tournament.addTeam save this c in
  let removed := Tournament.removeTeam save this c in
  (Tournament.isFull this = true ->
   added = Tournament.Throws "Tournament is full") /\
  (Tournament.isFull this = false ->
   (forall message, added <> Tournament.Throws message) /\
   ((c ∉ Tournament.competitors this) ->
    let this' := Tournament.mk (Tournament.status this)
                   (Tournament.maxPlayers this)
                   (Tournament.currentPlayers this + 1)
                   (Tournament.registrationDeadline this)
                   (Tournament.competitors this ++ [c]) in
    added = Tournament.Saves this' (save this')) /\
   (c ∈ Tournament.competitors this -> added = Tournament.Returns this) /\
   c ∈ Tournament.competitors (Tournament.after this added)) /\
  Tournament.counted (Tournament.after this added) /\
  (c ∉ Tournament.competitors (Tournament.after this removed)) /\
  Tournament.counted (Tournament.after this removed) /\
  (forall now, Tournament.isRegistrationOpen now this = true ->
     Tournament.isFull this = false).
Proof.
  intros (Hnd & Hcount & Hmax) added removed.
  subst added removed. unfold Tournament.addTeam, Tournament.removeTeam,
    Tournament.isFull.
  split; [intros ->; reflexivity |].
  split; [| split; [| split; [| split]]].
  - intros ->. case_bool_decide as Hin; simpl.
    + split; [discriminate |]. split; [contradiction |].
      split; [reflexivity | exact Hin].
    + split; [discriminate |]. split; [reflexivity |].
      split; [contradiction |].
      apply elem_of_app. right. apply list_elem_of_singleton. reflexivity.
  - destruct (Z.geb_spec (Tournament.currentPlayers this)
                (Tournament.maxPlayers this)) as [Hfull | Hfree]; simpl.
    + repeat split; assumption.
    + case_bool_decide as Hin; simpl; [repeat split; assumption |].
      unfold Tournament.counted. simpl. repeat split.
      * apply NoDup_app. repeat split; [assumption | | apply NoDup_singleton].
        intros x Hx Hx'. apply list_elem_of_singleton in Hx'. subst x.
        contradiction.
      * rewrite length_app. simpl. lia.
      * lia.
  - case_bool_decide as Hin; simpl; [| exact Hin].
    apply (remove_first_present c _ Hin Hnd).
  - case_bool_decide as Hin; simpl; [| repeat split; assumption].
    destruct (remove_first_present c _ Hin Hnd) as (Hlen & Hnd' & _ & _).
    unfold Tournament.counted. simpl. repeat split; [assumption | lia | lia].
  - intros now Hopen. unfold Tournament.isRegistrationOpen in Hopen.
    apply andb_true_iff in Hopen as [_ Hfull].
    apply negb_true_iff in Hfull. exact Hfull.
Qed.

(** X21. Removing a team that was just added undoes the addition: on a
    tournament that is not full, with a count that is not negative and
    without the team, [addTeam] followed by [removeTeam] gives back the
    tournament as it was. *)
Theorem removeTeam_undoes_addTeam (this : Tournament.t) (c : ObjectId) :
  Tournament.isFull this = false -> 0 <= Tournament.currentPlayers this ->
  c ∉ Tournament.competitors this ->
  let added := Tournament.after this (Tournament.addTeam save this c) in
  Tournament.currentPlayers added = Tournament.currentPlayers this + 1 /\
  Tournament.after added (Tournament.removeTeam save added c) = this.
Proof.
  intros Hfull Hpos Hc added. subst added.
  unfold Tournament.addTeam. unfold Tournament.isFull in Hfull. rewrite Hfull.
  rewrite bool_decide_eq_false_2 by assumption. simpl.
  split; [reflexivity |].
  unfold Tournament.removeTeam. simpl.
  rewrite bool_decide_eq_true_2
    by (apply elem_of_app; right; apply list_elem_of_singleton; reflexivity).
  simpl. destruct this as [s mx cur dl cs]. simpl in *. f_equal.
  - lia.
  - clear -Hc. induction cs as [|x cs IH]; simpl.
    + rewrite bool_decide_eq_true_2 by reflexivity. reflexivity.
    + apply not_elem_of_cons in Hc as [Hne Hc].
      rewrite bool_decide_eq_false_2 by congruence. rewrite IH by assumption.
      reflexivity.
Qed.

End TournamentTeams.

Lemma open_tournament_counted : Tournament.counted open_tournament.
Proof.
  unfold Tournament.counted, open_tournament. simpl.
  split; [| split; lia].
  apply NoDup_cons. split; [intros H; apply list_elem_of_singleton in H; lia |].
  apply NoDup_singleton.
Qed.

(** Team 3 joins a tournament of two teams, which then counts three. *)
Lemma teams_stay_counted_witness :
  let added := Tournament.after open_tournament
                 (Tournament.addTeam (fun t => tt) open_tournament 3%N) in
  3%N ∈ Tournament.competitors added /\ Tournament.counted added /\
  Tournament.currentPlayers added
    = Tournament.currentPlayers open_tournament + 1.
Proof.
  intros added.
  destruct (teams_stay_counted (fun t => tt) open_tournament 3%N
              open_tournament_counted) as (_ & Hin & Hc & _).
  destruct (Hin eq_refl) as (_ & Hsaves & _ & Hlisted).
  split; [exact Hlisted |]. split; [exact Hc |].
  subst added. rewrite Hsaves; [reflexivity |].
  unfold open_tournament. simpl. intros H.
  apply elem_of_cons in H as [H | H]; [discriminate |].
  apply list_elem_of_singleton in H. discriminate.
Defined.

Lemma removeTeam_undoes_addTeam_witness :
  let added := Tournament.after open_tournament
                 (Tournament.addTeam (fun t => tt) open_tournament 3%N) in
  Tournament.after added (Tournament.removeTeam (fun t => tt) added 3%N)
    = open_tournament.
Proof.
  intros added.
  apply (removeTeam_undoes_addTeam (fun t => tt) open_tournament 3%N);
    [reflexivity | simpl; lia |].
  unfold open_tournament. simpl. intros H.
  apply elem_of_cons in H as [H | H]; [discriminate |].
  apply list_elem_of_singleton in H. discriminate.
Defined.

(** * Members of a team *)

Lemma is_member_true (u : ObjectId) (ms : list TeamMembers.Member) :
  TeamMembers.is_member u ms = true <-> u ∈ TeamMembers.userId <$> ms.
Proof.
  unfold TeamMembers.is_member. rewrite bool_decide_eq_true, Exists_exists.
  rewrite list_elem_of_fmap. split.
  - intros (m & Hm & Hu). exists m. auto.
  - intros (m & Hu & Hm). exists m. auto.
Qed.

(** X22. A user is a member of a team once at most. [addTeamMember]
    leaves the user a member; a user who was none is added at the end with
    the given role, or as 'member' when no role is given, and the document
    is saved; for a user who is a member already nothing changes, not even
    the role, and nothing is saved. If no user was listed twice, none is
    afterwards. *)
Theorem addTeamMember_once (now : Date) (ms : list TeamMembers.Member)
    (u : ObjectId) (r : option string) :
  let res := TeamMembers.addTeamMember now ms u r in
  TeamMembers.is_member u res.1 = true /\
  (TeamMembers.is_member u ms = false ->
   res = (ms ++ [TeamMembers.mkMember u
                   (match r with Some x => x | None => "member" end) now],
          true)) /\
  (TeamMembers.is_member u ms = true -> res = (ms, false)) /\
  (NoDup (TeamMembers.userId <$> ms) -> NoDup (TeamMembers.userId <$> res.1)).
Proof.
  intros res. subst res. unfold TeamMembers.addTeamMember.
  destruct (TeamMembers.is_member u ms) eqn:Hmem; simpl.
  - split; [exact Hmem |]. split; [discriminate |]. split; [reflexivity |].
    intros H. exact H.
  - split; [| split; [| split; [discriminate |]]].
    + apply is_member_true. rewrite fmap_app. apply elem_of_app. right.
      simpl. apply list_elem_of_singleton. reflexivity.
    + intros _. destruct r; reflexivity.
    + intros Hnd. rewrite fmap_app. apply NoDup_app.
      split; [exact Hnd |]. split; [| apply NoDup_singleton].
      intros x Hx Hx'. simpl in Hx'. apply list_elem_of_singleton in Hx'.
      subst x. apply is_member_true in Hx. congruence.
Qed.

(** X23. [removeTeamMember] removes the user and nobody else: afterwards
    the user is no member, the other members are there as before and in
    the same order, and the document is saved even when the user was no
    member. Removing a user who was just added to a team he was not in
    gives back the members as they were. *)
Theorem removeTeamMember_only_that_user (now : Date)
    (ms : list TeamMembers.Member) (u : ObjectId) (r : option string) :
  let res := TeamMembers.removeTeamMember ms u in
  TeamMembers.is_member u res.1 = false /\ res.2 = true /\
  res.1 = List.filter
            (fun m => negb (bool_decide (TeamMembers.userId m = u))) ms /\
  (forall m, TeamMembers.userId m <> u -> m ∈ res.1 <-> m ∈ ms) /\
  (TeamMembers.is_member u ms = false ->
   res.1 = ms /\
   (TeamMembers.removeTeamMember
      (TeamMembers.addTeamMember now ms u r).1 u).1 = ms).
Proof.
  intros res. subst res. unfold TeamMembers.removeTeamMember. simpl.
  assert (Hkeep : forall l : list TeamMembers.Member,
            TeamMembers.is_member u l = false ->
            List.filter
              (fun m => negb (bool_decide (TeamMembers.userId m = u))) l = l).
  { induction l as [|m l IH]; [reflexivity |]. intros Hl. simpl.
    assert (Hm : TeamMembers.userId m <> u /\ TeamMembers.is_member u l = false).
    { split.
      - intros Hu. apply not_true_iff_false in Hl. apply Hl.
        apply is_member_true. simpl. apply elem_of_cons. left. congruence.
      - apply not_true_iff_false. intros Hl'. apply not_true_iff_false in Hl.
        apply Hl. apply is_member_true. simpl. apply elem_of_cons. right.
        apply is_member_true. exact Hl'. }
    destruct Hm as [Hne Hl']. rewrite bool_decide_eq_false_2 by assumption.
    simpl. rewrite IH by assumption. reflexivity. }
  split; [| split; [reflexivity | split; [reflexivity | split]]].
  - apply not_true_iff_false. intros Hmem. apply is_member_true in Hmem.
    apply list_elem_of_fmap in Hmem as (m & Hu & Hm).
    apply list_elem_of_In, List.filter_In in Hm as [_ Hf].
    apply negb_true_iff, bool_decide_eq_false in Hf. congruence.
  - intros m Hne. rewrite !list_elem_of_In, List.filter_In.
    rewrite negb_true_iff, bool_decide_eq_false. tauto.
  - intros Hno. split; [apply Hkeep, Hno |].
    unfold TeamMembers.addTeamMember. rewrite Hno. simpl.
    rewrite List.filter_app. simpl.
    rewrite bool_decide_eq_true_2 by reflexivity. simpl.
    rewrite app_nil_r. apply Hkeep, Hno.
Qed.

Lemma removeTeamMember_only_that_user_witness :
  (TeamMembers.removeTeamMember duo 5%N).1 = [TeamMembers.mkMember 6%N "member" 20] /\
  (TeamMembers.removeTeamMember
     (TeamMembers.addTeamMember 30 duo 7%N None).1 7%N).1 = duo.
Proof.
  split; [reflexivity |].
  destruct (removeTeamMember_only_that_user 30 duo 7%N None)
    as (_ & _ & _ & _ & H).
  apply H. vm_compute. reflexivity.
Defined.

Lemma addTeamMember_once_witness :
  TeamMembers.addTeamMember 30 duo 5%N (Some "coach") = (duo, false) /\
  (TeamMembers.addTeamMember 30 duo 7%N None).1 =
    duo ++ [TeamMembers.mkMember 7%N "member" 30].
Proof.
  destruct (addTeamMember_once 30 duo 5%N (Some "coach")) as (_ & _ & Hin & _).
  destruct (addTeamMember_once 30 duo 7%N None) as (_ & Hout & _).
  split; [apply Hin | rewrite Hout]; vm_compute; reflexivity.
Defined.

(** * The life of a match *)

(** What a request writes is a new match or what a method left of the
    stored one. *)
Lemma handle_steps (now : Date) (db : DB) (rq : Request) :
  matches (handle now db rq).1 = matches db \/
  exists this,
    matches (handle now db rq).1 = <[written rq := this]> (matches db) /\
    persistable this /\
    match target rq with
    | None => exists body, this = new_Match body
    | Some id => exists m, matches db !! id = Some m /\ method_step m this
    end.
Proof.
  assert (Hsettle : forall id m (r : Match * Promise Match) done failed,
            r.2 = save r.1 -> method_step m r.1 ->
            matches (MatchController.settle db id r done failed).1 = matches db \/
            exists this,
              matches (MatchController.settle db id r done failed).1 =
                <[id := this]> (matches db) /\
              persistable this /\
              exists m0, Some m = Some m0 /\ method_step m0 this).
  { intros id m [this p] done failed Hp Hev. simpl in Hp, Hev. subst p.
    unfold MatchController.settle.
    destruct (save_cases this) as [[-> Hpers] | (e & -> & _)];
      [right; exists this; eauto | left; reflexivity]. }
  destruct rq as [newId body | id | id body | id newDate | id body
                 | id reason | id reason]; simpl.
  - unfold MatchController.createMatch.
    case_bool_decide; [| left; reflexivity].
    destruct (findCompetitorIn db (b_teamAId body) _); [| left; reflexivity].
    destruct (findCompetitorIn db (b_teamBId body) _); [| left; reflexivity].
    destruct (save_cases (new_Match body)) as [[-> Hp] | (e & -> & _)].
    + right. exists (new_Match body). eauto.
    + destruct e; left; reflexivity.
  - unfold MatchController.startMatch.
    destruct (matches db !! id) as [m|] eqn:Hm; [| left; reflexivity].
    case_bool_decide; [left; reflexivity |].
    apply (Hsettle id m); [reflexivity | constructor].
  - unfold MatchController.setMatchResult.
    destruct (b_scoreA body) as [a|]; [| left; reflexivity].
    destruct (b_scoreB body) as [b|]; [| left; reflexivity].
    destruct (matches db !! id) as [m|] eqn:Hm; [| left; reflexivity].
    pose proof (step_setResult m now (default "" (b_result body)) a b) as Hev.
    change (setResult now m (default "" (b_result body)) a b)
      with ((setResult now m (default "" (b_result body)) a b).1,
            save (setResult now m (default "" (b_result body)) a b).1).
    destruct (save_cases (setResult now m (default "" (b_result body)) a b).1)
      as [[-> Hp] | (e & -> & _)]; [| left; reflexivity].
    right. eexists. split; [| split; [exact Hp | eauto]].
    simpl. rewrite update_ledger_matches. reflexivity.
  - unfold MatchController.rescheduleMatch.
    destruct (MatchController.falsy newDate); [left; reflexivity |].
    destruct (matches db !! id) as [m|] eqn:Hm; [| left; reflexivity].
    apply (Hsettle id m); [reflexivity | constructor].
  - unfold MatchController.addGame.
    destruct (matches db !! id) as [m|] eqn:Hm; [| left; reflexivity].
    pose proof (step_addGame m now (MatchController.gameData_of m body)) as Hev.
    change (addGame now m (MatchController.gameData_of m body))
      with ((addGame now m (MatchController.gameData_of m body)).1,
            save (addGame now m (MatchController.gameData_of m body)).1).
    destruct (save_cases (addGame now m (MatchController.gameData_of m body)).1)
      as [[-> Hp] | (e & -> & _)]; [| left; reflexivity].
    right. eexists. split; [reflexivity | split; [exact Hp | eauto]].
  - unfold MatchController.cancelMatch.
    destruct (matches db !! id) as [m|] eqn:Hm; [| left; reflexivity].
    apply (Hsettle id m); [reflexivity | constructor].
  - unfold MatchController.postponeMatch.
    destruct (matches db !! id) as [m|] eqn:Hm; [| left; reflexivity].
    apply (Hsettle id m); [reflexivity | constructor].
Qed.

Lemma method_step_coherent (m this : Match) :
  method_step m this -> coherent m -> coherent this.
Proof.
  intros Hstep (Hc & Ho & Hw).
  assert (Hfin : forall this' : Match,
            (status this' = completed -> is_Some (endTime this')) ->
            (status this' = ongoing -> is_Some (startTime this')) ->
            (forall w, winnerId this' = Some w ->
               w = teamAId this' \/ w = teamBId this') ->
            coherent this') by (intros; repeat split; assumption).
  destruct Hstep; [| unfold setResult | | rewrite addGame_this | |]; simpl;
    try (destruct (a >? b); [| destruct (b >? a)]);
    try (destruct (_ <=? _); [| destruct (_ <=? _)]);
    apply Hfin; simpl;
    first [ exact Hc | exact Ho | exact Hw | (intros; discriminate)
          | (intros; eexists; reflexivity) | (intros w [= <-]; auto) ].
Qed.

Lemma new_Match_coherent (body : CreateBody) : coherent (new_Match body).
Proof. repeat split; simpl; discriminate. Qed.

(** X24. Status, times and winner of the stored matches stay coherent:
    if every completed match has an end time, every ongoing match a start
    time, and every winner is one of the two teams of its match, the same
    holds after any run of requests; so it does in particular for every
    run from a database without matches. *)
Theorem matches_stay_coherent (db : DB) (rqs : list (Date * Request)) :
  db_coherent db -> db_coherent (run db rqs).
Proof.
  revert db. induction rqs as [| [now rq] rqs IH]; intros db Hdb; simpl;
    [exact Hdb |].
  apply IH. intros id m.
  destruct (handle_steps now db rq) as [-> | (this & -> & _ & Ht)];
    [apply Hdb |].
  rewrite lookup_insert. case_decide as Hid; [| apply Hdb].
  intros [= <-]. destruct (target rq) as [id'|].
  - destruct Ht as (m & Hm & Hstep).
    eapply method_step_coherent; [exact Hstep | eapply Hdb; exact Hm].
  - destruct Ht as (body & ->). apply new_Match_coherent.
Qed.

(** A best of three is scheduled, started and decided by two games. *)
Lemma matches_stay_coherent_witness :
  let game := mkGameBody None (Some 1) (Some 0) (Some 1%N) None None in
  let rqs := [(10, Schedule 9%N two_teams); (100, Start 9%N);
              (200, AddGame 9%N game); (300, AddGame 9%N game)] in
  db_coherent (run db0 rqs) /\
  (status <$> matches (run db0 rqs) !! 9%N) = Some completed /\
  (winnerId <$> matches (run db0 rqs) !! 9%N) = Some (Some 1%N).
Proof.
  intros game rqs. split; [| split; vm_compute; reflexivity].
  apply matches_stay_coherent. intros id m. unfold db0. cbn [matches].
  rewrite lookup_empty. discriminate.
Defined.

(** X25. A match that was never completed can always be taken up again:
    whatever its status, cancelled and postponed included, a stored match
    without an end time is rescheduled by the reschedule handler for any
    new date that is a valid date and not the number 0, and the start that
    follows succeeds and leaves it ongoing. *)
Theorem rescheduled_match_can_start (now : Date) (db : DB) (id : ObjectId)
    (m : Match) (d : Date) :
  matches db !! id = Some m -> persistable m -> endTime m = None ->
  d <> 0 -> valid_date d = true ->
  let db1 := (MatchController.rescheduleMatch db id (Some d)).1 in
  res_success (MatchController.rescheduleMatch db id (Some d)).2 = true /\
  res_success (MatchController.startMatch now db1 id).2 = true /\
  matches (MatchController.startMatch now db1 id).1 !! id =
    Some (start now (rescheduleNewDate m d).1).1.
Proof.
  intros Hm Hp He Hd0 Hd db1.
  assert (Hp1 : persistable (rescheduleNewDate m d).1)
    by (apply persistable_status, persistable_scheduleAt; assumption).
  assert (H1 : MatchController.rescheduleMatch db id (Some d) =
               (store_match id (rescheduleNewDate m d).1 db,
                ok 200 "Match rescheduled successfully"
                  (Some (rescheduleNewDate m d).1))).
  { unfold MatchController.rescheduleMatch.
    rewrite falsy_Some by assumption. rewrite Hm.
    rewrite new_Date_valid by assumption.
    unfold MatchController.settle.
    change (rescheduleNewDate m d)
      with ((rescheduleNewDate m d).1, save (rescheduleNewDate m d).1).
    apply save_persistable in Hp1. rewrite Hp1. reflexivity. }
  subst db1. rewrite H1. cbn [fst snd]. split; [reflexivity |].
  set (m1 := (rescheduleNewDate m d).1) in *.
  assert (Hs : save (start now m1).1 = Resolved (start now m1).1).
  { apply save_persistable. destruct Hp1 as (Hv & Hab & _).
    split; [| split].
    - eapply valid_fields_frame; [..| exact Hv]; reflexivity.
    - exact Hab.
    - intros e s He'. simpl in He'. congruence. }
  unfold MatchController.startMatch, store_match. cbn [matches].
  rewrite lookup_insert_eq.
  rewrite bool_decide_eq_false_2 by (intros H; apply H; reflexivity).
  unfold MatchController.settle.
  change (start now m1) with ((start now m1).1, save (start now m1).1).
  rewrite Hs. cbn [fst snd]. split; [reflexivity |].
  unfold store_match. cbn [matches]. apply lookup_insert_eq.
Qed.

(** A cancelled match is rescheduled and started. *)
Lemma rescheduled_match_can_start_witness :
  let db := playing (set_status cancelled fresh) in
  let db1 := (MatchController.rescheduleMatch db 9%N (Some 900)).1 in
  (status <$> matches (MatchController.startMatch 1000 db1 9%N).1 !! 9%N)
    = Some ongoing.
Proof.
  intros db db1.
  destruct (rescheduled_match_can_start 1000 db 9%N
              (set_status cancelled fresh) 900) as (_ & _ & H).
  - apply lookup_insert_eq.
  - apply persistable_status, fresh_persistable.
  - reflexivity.
  - lia.
  - reflexivity.
  - exact (f_equal (fmap status) H).
Defined.

(** The match scheduled for 70 is upcoming at 60 and no longer at 75. *)
Lemma findUpcoming_spec_witness :
  (12%N, set_scheduleAt 70 fresh) ∈ MatchStatics.findUpcoming 60 three_scheduled /\
  (12%N, set_scheduleAt 70 fresh) ∉ MatchStatics.findUpcoming 75 three_scheduled.
Proof.
  split.
  - apply (proj1 (findUpcoming_spec 60 three_scheduled)).
    split; [reflexivity |]. split; [reflexivity | simpl; lia].
  - intros Hin.
    apply (proj1 (findUpcoming_spec 75 three_scheduled)) in Hin
      as (_ & _ & Hle).
    simpl in Hle. lia.
Defined.

(** Tournament 7 is deleted with match 9: nothing is found for it any
    more, and competitor 3 of tournament 8 is still there; tournament 99
    does not exist. *)
Lemma deleted_tournament_takes_its_matches_witness :
  MatchStatics.findByTournament 7%N
    (TournamentController.deleteTournament (playing fresh) 7%N).1 = [] /\
  competitors (TournamentController.deleteTournament (playing fresh) 7%N).1
    !! 3%N = Some (mkCompetitor 8%N 0 0 0) /\
  TournamentController.deleteTournament (playing fresh) 99%N =
    (playing fresh, fail 404 "Tournament not found").
Proof.
  destruct (deleted_tournament_takes_its_matches (playing fresh) 7%N)
    as [_ Hyes].
  destruct (deleted_tournament_takes_its_matches (playing fresh) 99%N)
    as [Hno _].
  assert (Hin : 7%N ∈ tournaments (playing fresh))
    by (simpl; apply elem_of_singleton; reflexivity).
  split; [| split].
  - apply Hyes. exact Hin.
  - destruct (Hyes Hin) as (_ & _ & _ & _ & Hcomp & _).
    apply Hcomp. split; [reflexivity | discriminate].
  - apply Hno. simpl. intros H. apply elem_of_singleton in H. discriminate.
Defined.

(** The competitor changed by the result 3-1 of match 9 is one of its
    teams. *)
Lemma only_the_two_teams_change_witness :
  exists id body m,
    RecordResult 9%N (mkResultBody None (Some 3) (Some 1)) = RecordResult id body /\
    matches (playing (started 1)) !! id = Some m /\
    (1%N = teamAId m \/ 1%N = teamBId m).
Proof.
  apply (proj2 (only_the_two_teams_change 200 (playing (started 1))
                  (RecordResult 9%N (mkResultBody None (Some 3) (Some 1))))).
  vm_compute. discriminate.
Defined.
